(** * An 8086 disassembler ([assembler.py]): shallow embedding and properties

    The Python program reads a file of raw 8086 machine code into a list of
    bytes and walks it with a cursor, printing one line per instruction.
    Python integers are unbounded, so bytes and every value computed from
    them are [Z]; the bit operators [&], [|], [<<], [>>] are [Z.land],
    [Z.lor], [Z.shiftl], [Z.shiftr].  A value that may be [None] is an
    [option Z].  Each call of [print] contributes one string to the output;
    an uncaught Python exception ends the run and is kept in the result. *)

From Stdlib Require Import ZArith List String Ascii Bool Lia.
From Stdlib Require DecimalString HexadecimalString.
Import ListNotations.

Local Open Scope string_scope.
Local Open Scope Z_scope.

(** ** The pieces of the Python runtime the program relies on *)

(** Exceptions the program can raise without catching them. *)
Inductive exn : Type :=
| TypeError
| ValueError.

(** A computation that returns a value or raises. *)
Inductive res (A : Type) : Type :=
| Ok (a : A)
| Raise (e : exn).

Arguments Ok {A} a.
Arguments Raise {A} e.

Definition bind {A B : Type} (m : res A) (k : A -> res B) : res B :=
  match m with
  | Ok a => k a
  | Raise e => Raise e
  end.

Notation "x <- m ;; k" := (bind m (fun x => k))
  (at level 61, m at next level, right associativity).

(** Arithmetic or comparison on [None] raises [TypeError]. *)
Definition need (o : option Z) : res Z :=
  match o with
  | Some v => Ok v
  | None => Raise TypeError
  end.

(** Truth value of an [int] used as a condition. *)
Definition truthy (z : Z) : bool := negb (z =? 0).

(** [str(z)] for an [int]. *)
Definition str_int (z : Z) : string :=
  DecimalString.NilZero.string_of_int (Z.to_int z).

(** [str(n)] for a list index. *)
Definition str_nat (n : nat) : string := str_int (Z.of_nat n).

(** What an f-string prints for a value that is an [int] or [None]. *)
Definition str_opt (o : option Z) : string :=
  match o with
  | Some z => str_int z
  | None => "None"
  end.

Fixpoint bin_of_pos (p : positive) (acc : string) : string :=
  match p with
  | xH => String "1" acc
  | xO q => bin_of_pos q (String "0" acc)
  | xI q => bin_of_pos q (String "1" acc)
  end.

Definition bin_digits (n : N) : string :=
  match n with
  | N0 => "0"
  | Npos p => bin_of_pos p ""
  end.

Definition hex_digits (n : N) : string :=
  HexadecimalString.NilZero.string_of_uint (N.to_hex_uint n).

Fixpoint zeros (k : nat) : string :=
  match k with
  | O => ""
  | S k' => String "0" (zeros k')
  end.

Definition zfill (width : nat) (s : string) : string :=
  zeros (width - String.length s) ++ s.

(** The format specs [:08b] and [:04x]: zero padding goes after the sign. *)
Definition format_08b (z : Z) : string :=
  if z <? 0 then "-" ++ zfill 7 (bin_digits (Z.abs_N z))
  else zfill 8 (bin_digits (Z.abs_N z)).

Definition format_04x (z : Z) : string :=
  if z <? 0 then "-" ++ zfill 3 (hex_digits (Z.abs_N z))
  else zfill 4 (hex_digits (Z.abs_N z)).

(** [sep.join(parts)]. *)
Fixpoint join (sep : string) (parts : list string) : string :=
  match parts with
  | [] => ""
  | [p] => p
  | p :: rest => p ++ sep ++ join sep rest
  end.

(** The slice [l[i:i+n]], which never raises. *)
Definition slice {A : Type} (l : list A) (i n : nat) : list A :=
  firstn n (skipn i l).

(** ** Lookup tables *)

Definition regtable : list (list string) :=
  [ ["al"; "cl"; "dl"; "bl"; "ah"; "ch"; "dh"; "bh"];
    ["ax"; "cx"; "dx"; "bx"; "sp"; "bp"; "si"; "di"] ].

Definition eff_add_calc : list string :=
  ["bx + si"; "bx + di"; "bp + si"; "bp + di"; "si"; "di"; "bp"; "bx"].

(** [regtable[wflag][field]]; both indices are masked before use. *)
Definition reg_name (wflag field : Z) : string :=
  nth (Z.to_nat field) (nth (Z.to_nat wflag) regtable []) "".

(** [eff_add_calc[rm]]. *)
Definition ea_name (rm : Z) : string :=
  nth (Z.to_nat rm) eff_add_calc "".

(** ** The decode routines *)

Definition dec_reg2reg (b1 b2 : Z) : string :=
  let dflag := Z.shiftr (Z.land b1 2) 1 in
  let wflag := Z.land b1 1 in
  let reg_field := Z.shiftr (Z.land b2 56) 3 in
  let rm_field := Z.land b2 7 in
  let op1 := reg_name wflag reg_field in
  let op2 := reg_name wflag rm_field in
  let opcode := Z.shiftr (Z.land b1 252) 2 in
  let operands :=
    (if truthy dflag then op1 else op2) ++ ", " ++
    (if truthy dflag then op2 else op1) in
  if opcode =? 34 then "mov " ++ operands
  else if opcode =? 0 then "add " ++ operands
  else if opcode =? 10 then "sub " ++ operands
  else if opcode =? 14 then "cmp " ++ operands
  else "Error: Invalid opcode".

Definition dec_i2reg (b1 : Z) (b2 b3 : option Z) : string :=
  let wflag := Z.shiftr (Z.land b1 8) 3 in
  let reg := reg_name wflag (Z.land b1 7) in
  if wflag =? 0 then
    match b2 with
    | None => "Error: Missing immediate value"
    | Some v2 =>
        let imm := v2 in
        let imm := if imm >? 127 then imm - 256 else imm in
        "mov " ++ reg ++ ", " ++ str_int imm
    end
  else
    match b2, b3 with
    | Some v2, Some v3 =>
        let imm := Z.lor (Z.shiftl v3 8) v2 in
        let imm := if imm >? 32767 then imm - 65536 else imm in
        "mov " ++ reg ++ ", " ++ str_int imm
    | _, _ => "Error: Missing immediate word"
    end.

(** [imm2reg_alt] returns a pair on success and a bare string when the
    sub-opcode is not in its table. *)
Inductive imm2reg_result : Type :=
| RStr (msg : string)
| RPair (instr : string) (instr_size : nat).

(** The table [{0b000: "add", 0b101: "sub", 0b111: "cmp"}] read with
    [.get(instruction_code, "Error")]. *)
Definition instruction_table (instruction_code : Z) : string :=
  if instruction_code =? 0 then "add"
  else if instruction_code =? 5 then "sub"
  else if instruction_code =? 7 then "cmp"
  else "Error".

Definition imm2reg_alt (b1 : Z) (b2 b3 b4 b5 : option Z)
  : res imm2reg_result :=
  let wflag := Z.land b1 1 in
  let sflag := Z.shiftr (Z.land b1 2) 1 in
  v2 <- need b2 ;;
  let instruction_code := Z.shiftr (Z.land v2 56) 3 in
  let rm := Z.land v2 7 in
  let mod_ := Z.shiftr (Z.land v2 192) 6 in
  let instruction := instruction_table instruction_code in
  if String.eqb instruction "Error" then
    Ok (RStr "Error: Invalid instruction code")
  else
    let dest :=
      if mod_ =? 3 then reg_name wflag rm
      else if mod_ =? 0 then "byte [" ++ ea_name rm ++ "]"
      else ea_name rm in
    if (mod_ =? 1) || (mod_ =? 2) then
      displacement <-
        (if mod_ =? 1 then need b3
         else v4 <- need b4 ;; v3 <- need b3 ;;
              Ok (Z.lor (Z.shiftl v4 8) v3)) ;;
      let displacement :=
        if (displacement >? 127) && (mod_ =? 1)
        then displacement - 256 else displacement in
      let displacement :=
        if (displacement >? 32767) && (mod_ =? 2)
        then displacement - 65536 else displacement in
      let dest :=
        if truthy wflag
        then "word [" ++ dest ++ " + " ++ str_int displacement ++ "]"
        else "byte [" ++ dest ++ " + " ++ str_int displacement ++ "]" in
      let imm :=
        if (mod_ =? 1) && (match b5 with None => true | Some _ => false end)
        then b4 else b5 in
      let instr_size := if mod_ =? 1 then 4%nat else 5%nat in
      Ok (RPair (instruction ++ " " ++ dest ++ ", " ++ str_opt imm) instr_size)
    else
      let imm := b3 in
      let instr_size := 3%nat in
      Ok (RPair (instruction ++ " " ++ dest ++ ", " ++ str_opt imm) instr_size).

(** The condition [opcode == 0b0000010 or 0b0010110]: Python parses it as
    [(opcode == 0b0000010) or 0b0010110], whose second operand is the
    integer 22 taken as a truth value. *)
Definition imm2acc_guard (opcode : Z) : bool :=
  (opcode =? 2) || truthy 22.

Definition imm2acc (b1 : Z) (b2 b3 : option Z) : string :=
  let wflag := Z.land b1 1 in
  let dest := reg_name wflag 0 in
  let opcode := Z.shiftr (Z.land b1 254) 1 in
  let instruction :=
    if opcode =? 2 then "add"
    else if opcode =? 22 then "sub"
    else "cmp" in
  if imm2acc_guard opcode then
    if wflag =? 0 then
      match b2 with
      | None => "Error: Missing immediate value"
      | Some v2 =>
          let imm := v2 in
          let imm := if imm >? 127 then imm - 256 else imm in
          instruction ++ " " ++ dest ++ ", " ++ str_int imm
      end
    else
      match b2, b3 with
      | Some v2, Some v3 =>
          let imm := Z.lor (Z.shiftl v3 8) v2 in
          let imm := if imm >? 32767 then imm - 65536 else imm in
          instruction ++ " " ++ dest ++ ", " ++ str_int imm
      | _, _ => "Error: Missing immediate word"
      end
  else
    let imm := b2 in
    instruction ++ " " ++ dest ++ ", " ++ str_opt imm.

Definition dec_modrm_instr (b1 b2 : Z) (b3 b4 : option Z) : string :=
  let dflag := Z.shiftr (Z.land b1 2) 1 in
  let wflag := Z.land b1 1 in
  let reg_field := Z.shiftr (Z.land b2 56) 3 in
  let rm := Z.land b2 7 in
  let mod_ := Z.shiftr (Z.land b2 192) 6 in
  let op1 := reg_name wflag reg_field in
  let opcode := Z.shiftr (Z.land b1 252) 2 in
  let finish (instruction ea : string) : string :=
    instruction ++ " " ++ (if truthy dflag then op1 else ea) ++ ", " ++
    (if truthy dflag then ea else op1) in
  let effective_address (instruction : string) : string :=
    if mod_ =? 0 then
      if rm =? 6 then
        match b3, b4 with
        | Some v3, Some v4 =>
            let addr := Z.lor (Z.shiftl v4 8) v3 in
            finish instruction ("[0x" ++ format_04x addr ++ "]")
        | _, _ => "Error: Missing direct address bytes"
        end
      else finish instruction ("[" ++ ea_name rm ++ "]")
    else if mod_ =? 1 then
      match b3 with
      | None => "Error: Missing 8-bit displacement"
      | Some v3 =>
          let disp := if v3 <? 128 then v3 else v3 - 256 in
          finish instruction ("[" ++ ea_name rm ++ " + " ++ str_int disp ++ "]")
      end
    else if mod_ =? 2 then
      match b3, b4 with
      | Some v3, Some v4 =>
          let disp := Z.lor (Z.shiftl v4 8) v3 in
          let disp := if disp >? 32767 then disp - 65536 else disp in
          finish instruction (ea_name rm ++ " + " ++ str_int disp)
      | _, _ => "Error: Missing 16-bit displacement"
      end
    else "Error: mod=3 (register addressing) should be handled elsewhere" in
  if opcode =? 0 then effective_address "add"
  else if opcode =? 10 then effective_address "sub"
  else if opcode =? 14 then effective_address "cmp"
  else "Error: Invalid opcode".

(** ** The decode driver *)

(** The line feed that opens the "Processing" message, and the UTF-8
    encoding of the warning sign (U+26A0 U+FE0F) that opens the
    "Unknown opcode" message. *)
Definition nl : string := String "010" "".

Definition warning_sign : string :=
  String "226" (String "154" (String "160"
    (String "239" (String "184" (String "143" ""))))).

(** [x in l] for a list literal of integers. *)
Definition in_list (x : Z) (l : list Z) : bool := existsb (Z.eqb x) l.

Definition processing_line (b1 : Z) (i : nat) : string :=
  nl ++ "Processing byte " ++ format_08b b1 ++ " at index " ++ str_nat i.

Definition decoded_line (instr : string) (used_bytes : list Z) : string :=
  "Decoded: " ++ instr ++ " (bytes: " ++
  join " " (map format_08b used_bytes) ++ ")".

Definition unknown_line (b1 : Z) (i : nat) : string :=
  warning_sign ++ " Unknown opcode: " ++ format_08b b1 ++
  " at index " ++ str_nat i.

(** Unpacking [instr, instr_size = r]: a pair unpacks; a string unpacks
    only when it has two characters, and then [instr_size] is a string and
    the slice bound [i + instr_size] raises [TypeError]. *)
Definition unpack_pair (r : imm2reg_result) : res (string * nat) :=
  match r with
  | RPair instr instr_size => Ok (instr, instr_size)
  | RStr msg =>
      if (String.length msg =? 2)%nat then Raise TypeError
      else Raise ValueError
  end.

(** What one pass through the body of the [while] loop does: the lines it
    prints, and whether the loop goes on at a new cursor, is left with
    [break], or is left by an exception. *)
Inductive step_result : Type :=
| Next (out : list string) (i' : nat)
| Break (out : list string)
| Crash (out : list string) (e : exn).

(** The loop body at cursor [i], where [b1 = byte_list[i]].  A read
    [byte_list[k] if k < len(byte_list) else None] is [nth_error byte_list k]. *)
Definition loop_body (byte_list : list Z) (i : nat) (b1 : Z) : step_result :=
  let processing := processing_line b1 i in
  if in_list (Z.shiftr (Z.land b1 252) 2) [0; 10; 14] then
    match nth_error byte_list (i + 1) with
    | None => Break [processing; "Error: Missing MODRM byte"]
    | Some b2 =>
        let mod_ := Z.shiftr (Z.land b2 192) 6 in
        let rm := Z.land b2 7 in
        if mod_ =? 3 then
          let instr := dec_reg2reg b1 b2 in
          let instr_size := 2%nat in
          let used_bytes := slice byte_list i instr_size in
          Next [processing; "Using: dec_reg2reg()";
                decoded_line instr used_bytes] (i + instr_size)
        else
          let displacement_size :=
            if (mod_ =? 0) && (rm =? 6) then 2%nat
            else if mod_ =? 1 then 1%nat
            else if mod_ =? 2 then 2%nat
            else 0%nat in
          let b3 := nth_error byte_list (i + 2) in
          let b4 := nth_error byte_list (i + 3) in
          let instr := dec_modrm_instr b1 b2 b3 b4 in
          let instr_size := (2 + displacement_size)%nat in
          let used_bytes := slice byte_list i instr_size in
          Next [processing; "Using: dec_modrm_instr()";
                decoded_line instr used_bytes] (i + instr_size)
    end
  else if Z.shiftr (Z.land b1 252) 2 =? 32 then
    let b2 := nth_error byte_list (i + 1) in
    let b3 := nth_error byte_list (i + 2) in
    let b4 := nth_error byte_list (i + 3) in
    let b5 := nth_error byte_list (i + 4) in
    match r <- imm2reg_alt b1 b2 b3 b4 b5 ;; unpack_pair r with
    | Raise e => Crash [processing; "Using: imm2reg_alt()"] e
    | Ok (instr, instr_size) =>
        let used_bytes := slice byte_list i instr_size in
        Next [processing; "Using: imm2reg_alt()";
              decoded_line instr used_bytes] (i + instr_size)
    end
  else if in_list (Z.shiftr (Z.land b1 254) 1) [2; 22; 30] then
    let wflag := Z.land b1 1 in
    let b2 := nth_error byte_list (i + 1) in
    let b3 := nth_error byte_list (i + 2) in
    let instr_size := if truthy wflag then 3%nat else 2%nat in
    let instr := imm2acc b1 b2 b3 in
    let used_bytes := slice byte_list i instr_size in
    Next [processing; "Using: imm2acc()";
          decoded_line instr used_bytes] (i + instr_size)
  else
    Next [processing; unknown_line b1 i] (i + 1).

(** How a run of the driver ends. *)
Inductive status : Type :=
| Returned
| Raised (e : exn).

(** The [while i < len(byte_list)] loop, with a bound on the number of
    passes; [None] means the bound was too small. *)
Fixpoint disassemble_loop (fuel : nat) (byte_list : list Z) (i : nat)
  : option (list string * status) :=
  match fuel with
  | O => None
  | S fuel' =>
      match nth_error byte_list i with
      | None => Some ([], Returned)
      | Some b1 =>
          match loop_body byte_list i b1 with
          | Break out => Some (out, Returned)
          | Crash out e => Some (out, Raised e)
          | Next out i' =>
              match disassemble_loop fuel' byte_list i' with
              | None => None
              | Some (rest, st) => Some ((out ++ rest)%list, st)
              end
          end
      end
  end.

(** [disassemble], from the byte list read from the file: one pass per
    byte, and one more to see the end, are always enough, as
    [disassemble_loop_total] shows. *)
Definition disassemble (byte_list : list Z) : option (list string * status) :=
  disassemble_loop (S (List.length byte_list)) byte_list 0.

(** ** Reference definitions used to state the properties *)

(** The bit fields of the two leading bytes. *)
Definition top6 (b1 : Z) : Z := Z.shiftr (Z.land b1 252) 2.
Definition top7 (b1 : Z) : Z := Z.shiftr (Z.land b1 254) 1.
Definition word_flag (b1 : Z) : Z := Z.land b1 1.
Definition direction_flag (b1 : Z) : Z := Z.shiftr (Z.land b1 2) 1.
Definition mod_field (b2 : Z) : Z := Z.shiftr (Z.land b2 192) 6.
Definition reg_field (b2 : Z) : Z := Z.shiftr (Z.land b2 56) 3.
Definition rm_field (b2 : Z) : Z := Z.land b2 7.

(** Two's-complement reading of an immediate as the specification words
    it: a byte of 128 or more stands for itself minus 256; a word is
    high * 256 + low, and 32768 or more stands for itself minus 65536. *)
Definition twos_complement8 (v : Z) : Z :=
  if 128 <=? v then v - 256 else v.

Definition twos_complement16 (low high : Z) : Z :=
  let u := high * 256 + low in
  if 32768 <=? u then u - 65536 else u.

(** A byte as read from a file. *)
Definition is_byte (v : Z) : Prop := 0 <= v < 256.

(** The 256 byte values. *)
Definition all_bytes : list Z := map Z.of_nat (seq 0 256).

(** The mnemonic chosen by the register/memory routines and by the
    accumulator routine. *)
Definition modrm_mnemonic (b1 : Z) : option string :=
  if top6 b1 =? 0 then Some "add"
  else if top6 b1 =? 10 then Some "sub"
  else if top6 b1 =? 14 then Some "cmp"
  else None.

Definition acc_mnemonic (b1 : Z) : string :=
  if top7 b1 =? 2 then "add"
  else if top7 b1 =? 22 then "sub"
  else "cmp".

(** The extra bytes the addressing mode of the specification asks for. *)
Definition spec_displacement_bytes (b2 : Z) : nat :=
  if mod_field b2 =? 1 then 1%nat
  else if mod_field b2 =? 2 then 2%nat
  else if (mod_field b2 =? 0) && (rm_field b2 =? 6) then 2%nat
  else 0%nat.

(** The length the specification announces for the immediate-to-register-
    or-memory family: opcode byte, field byte, displacement, and an
    immediate of one byte, or two when the word flag is set. *)
Definition spec_imm2reg_length (b1 b2 : Z) : nat :=
  (2 + spec_displacement_bytes b2 +
   (if truthy (word_flag b1) then 2 else 1))%nat.

(** The length [imm2reg_alt] reports: a function of the mod field only. *)
Definition imm2reg_length (b2 : Z) : nat :=
  if mod_field b2 =? 1 then 4%nat
  else if mod_field b2 =? 2 then 5%nat
  else 3%nat.

(** A memory operand as the specification renders it: in brackets, the
    displacement left out when it is absent or zero, a negative one
    written as a subtraction. *)
Definition spec_memory_operand (base : string) (disp : option Z) : string :=
  match disp with
  | None => "[" ++ base ++ "]"
  | Some d =>
      if d =? 0 then "[" ++ base ++ "]"
      else if d <? 0 then "[" ++ base ++ " - " ++ str_int (- d) ++ "]"
      else "[" ++ base ++ " + " ++ str_int d ++ "]"
  end.

(** A memory operand as the program renders it: in brackets, the
    displacement left out only when the addressing mode has none. *)
Definition memory_operand (base : string) (disp : option Z) : string :=
  match disp with
  | None => "[" ++ base ++ "]"
  | Some d => "[" ++ base ++ " + " ++ str_int d ++ "]"
  end.

(** A text in brackets. *)
Definition bracketed (s : string) : Prop :=
  exists body, s = "[" ++ body ++ "]".

(** The line of the register/memory routine around a memory operand. *)
Definition modrm_line (instruction : string) (b1 b2 : Z) (ea : string)
  : string :=
  let op1 := reg_name (word_flag b1) (reg_field b2) in
  instruction ++ " " ++
  (if truthy (direction_flag b1) then op1 else ea) ++ ", " ++
  (if truthy (direction_flag b1) then ea else op1).

(** The size qualifier [imm2reg_alt] puts before a memory operand that has
    a displacement. *)
Definition size_qualifier (b1 : Z) : string :=
  if truthy (word_flag b1) then "word " else "byte ".

(** ** The file helper *)

(** A file opened with mode ['rb'], seen as the bytes not read yet:
    [f.read(num_bytes)] hands out at most [num_bytes] of them and leaves
    the others for the next read; it hands out all of them when
    [num_bytes] is -1, and raises [ValueError] when it is below -1. *)
Definition file_read (f : list Z) (num_bytes : Z) : res (list Z * list Z) :=
  if num_bytes <? -1 then Raise ValueError
  else if num_bytes <? 0 then Ok (f, [])
  else Ok (firstn (Z.to_nat num_bytes) f, skipn (Z.to_nat num_bytes) f).

(** [int.from_bytes(data, 'little')]. *)
Fixpoint int_from_bytes_little (data : list Z) : Z :=
  match data with
  | [] => 0
  | b :: rest => b + 256 * int_from_bytes_little rest
  end.

(** [safe_read(f, num_bytes)], with the file after the read. *)
Definition safe_read (f : list Z) (num_bytes : Z)
  : res (option Z * list Z) :=
  r <- file_read f num_bytes ;;
  let (data, f') := r in
  Ok (match data with
      | [] => None
      | _ :: _ => Some (int_from_bytes_little data)
      end, f').

(** ** Reference definitions for the further properties *)

(** The leading bytes one of the three decoding branches takes. *)
Definition known_opcodes : list Z :=
  [0; 1; 2; 3; 4; 5; 40; 41; 42; 43; 44; 45;
   56; 57; 58; 59; 60; 61; 128; 129; 130; 131].

(** The leading bytes of the accumulator family. *)
Definition accumulator_opcodes : list Z := [4; 5; 44; 45; 60; 61].

(** The field byte with the reg and rm fields exchanged. *)
Definition exchange_fields (b2 : Z) : Z :=
  Z.lor (Z.land b2 192)
    (Z.lor (Z.shiftl (Z.land b2 7) 3) (Z.shiftr (Z.land b2 56) 3)).

(** The two lines printed for each byte of a run of unknown opcodes that
    starts at cursor [i]. *)
Fixpoint unknown_lines (bytes : list Z) (i : nat) : list string :=
  match bytes with
  | [] => []
  | b :: rest =>
      processing_line b i :: unknown_line b i :: unknown_lines rest (S i)
  end.

(** A stream made of two-byte instructions, and the three lines printed
    for each of them by the register-to-register branch when the first
    one sits at cursor [i]. *)
Definition flatten_pairs (instrs : list (Z * Z)) : list Z :=
  flat_map (fun p => [fst p; snd p]) instrs.

Fixpoint reg2reg_lines (instrs : list (Z * Z)) (i : nat) : list string :=
  match instrs with
  | [] => []
  | (b1, b2) :: rest =>
      processing_line b1 i :: "Using: dec_reg2reg()" ::
      decoded_line (dec_reg2reg b1 b2) [b1; b2] ::
      reg2reg_lines rest (i + 2)
  end.

(** The displacement bytes [dec_modrm_instr] needs are there. *)
Definition displacement_present (b2 : Z) (b3 b4 : option Z) : Prop :=
  (mod_field b2 = 0 -> rm_field b2 = 6 -> b3 <> None /\ b4 <> None) /\
  (mod_field b2 = 1 -> b3 <> None) /\
  (mod_field b2 = 2 -> b3 <> None /\ b4 <> None).

(** The three messages of [dec_modrm_instr] for missing bytes. *)
Definition missing_messages : list string :=
  ["Error: Missing direct address bytes";
   "Error: Missing 8-bit displacement";
   "Error: Missing 16-bit displacement"].

(** The effective-address step of [dec_modrm_instr] taken alone: the text
    of the memory operand, or the message the routine returns instead. *)
Definition effective_address (b2 : Z) (b3 b4 : option Z) : string + string :=
  if mod_field b2 =? 0 then
    if rm_field b2 =? 6 then
      match b3, b4 with
      | Some v3, Some v4 =>
          inl ("[0x" ++ format_04x (Z.lor (Z.shiftl v4 8) v3) ++ "]")
      | _, _ => inr "Error: Missing direct address bytes"
      end
    else inl ("[" ++ ea_name (rm_field b2) ++ "]")
  else if mod_field b2 =? 1 then
    match b3 with
    | None => inr "Error: Missing 8-bit displacement"
    | Some v3 =>
        inl ("[" ++ ea_name (rm_field b2) ++ " + " ++
             str_int (if v3 <? 128 then v3 else v3 - 256) ++ "]")
    end
  else if mod_field b2 =? 2 then
    match b3, b4 with
    | Some v3, Some v4 =>
        let disp := Z.lor (Z.shiftl v4 8) v3 in
        inl (ea_name (rm_field b2) ++ " + " ++
             str_int (if disp >? 32767 then disp - 65536 else disp))
    | _, _ => inr "Error: Missing 16-bit displacement"
    end
  else inr "Error: mod=3 (register addressing) should be handled elsewhere".

(** * Properties *)

(** ** Bit fields depend on the low eight bits only *)

Lemma land_low8 (b k : Z) :
  0 <= k < 256 -> Z.land b k = Z.land (b mod 256) k.
Proof.
  intros Hk. change 256 with (2 ^ 8).
  rewrite <- Z.land_ones by lia.
  rewrite <- Z.land_assoc. f_equal.
  rewrite Z.land_comm, Z.land_ones by lia.
  symmetry. apply Z.mod_small. exact Hk.
Qed.

Lemma top6_low8 (b1 : Z) : top6 b1 = top6 (b1 mod 256).
Proof. unfold top6. rewrite (land_low8 b1) by lia. reflexivity. Qed.

Lemma top7_low8 (b1 : Z) : top7 b1 = top7 (b1 mod 256).
Proof. unfold top7. rewrite (land_low8 b1) by lia. reflexivity. Qed.

(** Case analysis over the 256 byte values, by computation. *)
Lemma all_bytes_complete (v : Z) : is_byte v -> In v all_bytes.
Proof.
  intros [Hlo Hhi]. unfold all_bytes. apply in_map_iff.
  exists (Z.to_nat v). split; [lia|]. apply in_seq. lia.
Qed.

Lemma byte_cases (P : Z -> bool) :
  forallb P all_bytes = true -> forall v, is_byte v -> P v = true.
Proof.
  intros Hall v Hv. rewrite forallb_forall in Hall.
  apply Hall, all_bytes_complete, Hv.
Qed.

Lemma mod256_is_byte (b : Z) : is_byte (b mod 256).
Proof. unfold is_byte. apply Z.mod_pos_bound. lia. Qed.

(** ** Dispatch of the driver on the leading byte *)

(** A leading byte whose top six bits are 100010 (MOV, register/memory
    form) matches none of the three patterns the accumulator branch
    tests. *)
Lemma mov_regmem_not_accumulator (b1 : Z) :
  top6 b1 = 34 -> in_list (top7 b1) [2; 22; 30] = false.
Proof.
  rewrite top6_low8, top7_low8. intros Htop.
  pose proof (byte_cases
    (fun v => implb (top6 v =? 34) (negb (in_list (top7 v) [2; 22; 30])))
    ltac:(vm_compute; reflexivity) _ (mod256_is_byte b1)) as Hc.
  cbv beta in Hc. rewrite Htop in Hc. cbn [Z.eqb Pos.eqb implb] in Hc.
  apply negb_true_iff. exact Hc.
Qed.

(** Such a byte reaches none of the three decoding branches of the
    driver: it is reported as unknown and skipped. *)
Lemma loop_body_mov_regmem (byte_list : list Z) (i : nat) (b1 : Z) :
  top6 b1 = 34 ->
  loop_body byte_list i b1 =
  Next [processing_line b1 i; unknown_line b1 i] (i + 1).
Proof.
  intros Htop. pose proof (mov_regmem_not_accumulator b1 Htop) as Hacc.
  unfold loop_body. fold (top6 b1) (top7 b1).
  rewrite Htop, Hacc. reflexivity.
Qed.

(** A leading byte whose top four bits are 1011 (MOV, immediate to
    register) is likewise reported as unknown: no branch of the driver
    calls [dec_i2reg]. *)
Lemma loop_body_mov_imm2reg (byte_list : list Z) (i : nat) (b1 : Z) :
  Z.land b1 240 = 176 ->
  loop_body byte_list i b1 =
  Next [processing_line b1 i; unknown_line b1 i] (i + 1).
Proof.
  intros Htop.
  pose proof (byte_cases
    (fun v => implb (Z.land v 240 =? 176)
                (negb (in_list (top6 v) [0; 10; 14]) &&
                 negb (top6 v =? 32) &&
                 negb (in_list (top7 v) [2; 22; 30])))
    ltac:(vm_compute; reflexivity) _ (mod256_is_byte b1)) as Hc.
  cbv beta in Hc.
  rewrite <- (land_low8 b1 240), <- top6_low8, <- top7_low8 in Hc by lia.
  rewrite Htop in Hc. cbn [Z.eqb Pos.eqb implb] in Hc.
  apply andb_true_iff in Hc as [Hc H7].
  apply andb_true_iff in Hc as [H6 H32].
  apply negb_true_iff in H6, H32, H7.
  unfold loop_body. fold (top6 b1) (top7 b1).
  rewrite H6, H32, H7. reflexivity.
Qed.

(** ** Scenarios of the specification run through the driver *)

(** C1. On the bytes [0x89, 0xD8] the driver does not classify a MOV: it
    reports each of the two bytes as an unknown opcode and advances by one
    byte each time, although [dec_reg2reg], which it never reaches for a
    MOV opcode, would format the pair as "mov ax, bx". *)
Theorem disassemble_mov_ax_bx_unknown :
  disassemble [137; 216] =
  Some ([processing_line 137 0; unknown_line 137 0;
         processing_line 216 1; unknown_line 216 1], Returned) /\
  dec_reg2reg 137 216 = "mov ax, bx".
Proof. split; vm_compute; reflexivity. Qed.

(** C2. On the bytes [0xB1, 0x0C] the driver reports two unknown opcodes;
    [dec_i2reg], which would format them as "mov cl, 12", is called from
    no branch of the driver. *)
Theorem disassemble_mov_cl_12_unknown :
  disassemble [177; 12] =
  Some ([processing_line 177 0; unknown_line 177 0;
         processing_line 12 1; unknown_line 12 1], Returned) /\
  dec_i2reg 177 (Some 12) None = "mov cl, 12".
Proof. split; vm_compute; reflexivity. Qed.

(** C3. On the bytes [0x83, 0x06, 0x00, 0x00, 0x07] the immediate routine
    takes mod=00, rm=110 for the operand [bp] without address bytes: it
    prints the immediate 0 and a length of 3, and the driver decodes the
    two bytes left as a second instruction. *)
Theorem disassemble_imm_direct_address :
  imm2reg_alt 131 (Some 6) (Some 0) (Some 0) (Some 7) =
  Ok (RPair "add byte [bp], 0" 3) /\
  disassemble [131; 6; 0; 0; 7] =
  Some ([processing_line 131 0; "Using: imm2reg_alt()";
         "Decoded: add byte [bp], 0 (bytes: 10000011 00000110 00000000)";
         processing_line 0 3; "Using: dec_modrm_instr()";
         "Decoded: add [bx], al (bytes: 00000000 00000111)"], Returned).
Proof. split; vm_compute; reflexivity. Qed.

(** The register/memory branch of the driver does count two address bytes
    for mod=00, rm=110. *)
Lemma loop_body_regmem_direct_address
  (byte_list : list Z) (i : nat) (b1 b2 : Z) :
  in_list (top6 b1) [0; 10; 14] = true ->
  nth_error byte_list (i + 1) = Some b2 ->
  mod_field b2 = 0 -> rm_field b2 = 6 ->
  exists out, loop_body byte_list i b1 = Next out (i + 4).
Proof.
  intros Hop Hb2 Hmod Hrm. unfold loop_body.
  fold (top6 b1). rewrite Hop, Hb2.
  fold (mod_field b2) (rm_field b2). rewrite Hmod, Hrm.
  cbn [Z.eqb andb Nat.add]. eexists. reflexivity.
Qed.

(** C4. [imm2reg_alt] prints the immediate byte as read: 0xFF comes out as
    255, not as -1, and with the word flag set only the low byte 0x00 of
    the word 0x8000 is printed. *)
Theorem imm2reg_alt_immediate_unsigned :
  imm2reg_alt 128 (Some 192) (Some 255) None None =
  Ok (RPair "add al, 255" 3) /\
  imm2reg_alt 129 (Some 192) (Some 0) (Some 128) None =
  Ok (RPair "add ax, 0" 3).
Proof. split; vm_compute; reflexivity. Qed.

(** C6. A sub-opcode outside the table makes [imm2reg_alt] return a bare
    string; unpacking it as a pair raises [ValueError], which nothing
    catches: whatever follows the bytes [0x80, 0x08], the run ends there
    with no line for the instruction and none for the rest of the stream. *)
Theorem disassemble_invalid_subopcode_raises (rest : list Z) :
  disassemble (128 :: 8 :: rest) =
  Some ([processing_line 128 0; "Using: imm2reg_alt()"], Raised ValueError).
Proof. reflexivity. Qed.

(** C7. On the single byte [0x88] the driver prints an unknown-opcode
    line, not a missing-byte error, and then the loop ends. *)
Theorem disassemble_lone_mov_opcode :
  disassemble [136] =
  Some ([processing_line 136 0; unknown_line 136 0], Returned).
Proof. vm_compute; reflexivity. Qed.

(** A lone ADD, SUB or CMP opcode of the register/memory form does give
    the missing-byte error and leaves the loop. *)
Lemma loop_body_missing_modrm (byte_list : list Z) (i : nat) (b1 : Z) :
  in_list (top6 b1) [0; 10; 14] = true ->
  nth_error byte_list (i + 1) = None ->
  loop_body byte_list i b1 =
  Break [processing_line b1 i; "Error: Missing MODRM byte"].
Proof.
  intros Hop Hb2. unfold loop_body. fold (top6 b1).
  rewrite Hop, Hb2. reflexivity.
Qed.

(** ** Immediates read as two's complement *)

(** [(high << 8) | low] is high * 256 + low when [low] is a byte. *)
Lemma lor_shiftl8 (high low : Z) :
  is_byte low -> Z.lor (Z.shiftl high 8) low = high * 256 + low.
Proof.
  intros [Hlo Hhi].
  assert (Hdisj : Z.land (Z.shiftl high 8) low = 0).
  { apply Z.bits_inj'. intros n Hn.
    rewrite Z.land_spec, Z.bits_0.
    destruct (Z.lt_ge_cases n 8) as [Hlt | Hge].
    - rewrite Z.shiftl_spec_low by lia. reflexivity.
    - replace (Z.testbit low n) with false; [apply andb_false_r|].
      symmetry. destruct (Z.eq_dec low 0) as [-> | Hnz].
      + apply Z.bits_0.
      + apply Z.bits_above_log2; [lia|].
        assert (Z.log2 low < 8); [|lia].
        apply Z.log2_lt_pow2; lia. }
  rewrite <- (Z.lxor_lor _ _ Hdisj), <- (Z.add_nocarry_lxor _ _ Hdisj).
  rewrite Z.shiftl_mul_pow2 by lia. reflexivity.
Qed.

Lemma signed8_code (v : Z) :
  (if v >? 127 then v - 256 else v) = twos_complement8 v.
Proof.
  unfold twos_complement8.
  destruct (Z.gtb_spec v 127), (Z.leb_spec 128 v); lia.
Qed.

Lemma signed8_code' (v : Z) :
  (if v <? 128 then v else v - 256) = twos_complement8 v.
Proof.
  unfold twos_complement8.
  destruct (Z.ltb_spec v 128), (Z.leb_spec 128 v); lia.
Qed.

Lemma signed16_code (low high : Z) :
  is_byte low ->
  (let imm := Z.lor (Z.shiftl high 8) low in
   if imm >? 32767 then imm - 65536 else imm) = twos_complement16 low high.
Proof.
  intros Hlow. cbv zeta. rewrite (lor_shiftl8 _ _ Hlow).
  unfold twos_complement16. cbv zeta.
  destruct (Z.gtb_spec (high * 256 + low) 32767),
    (Z.leb_spec 32768 (high * 256 + low)); lia.
Qed.

(** [dec_i2reg] reads its immediate as two's complement, in both widths. *)
Lemma dec_i2reg_imm8 (b1 v : Z) (b3 : option Z) :
  Z.shiftr (Z.land b1 8) 3 = 0 ->
  dec_i2reg b1 (Some v) b3 =
  "mov " ++ reg_name 0 (Z.land b1 7) ++ ", " ++ str_int (twos_complement8 v).
Proof.
  intros Hw. unfold dec_i2reg. rewrite Hw. cbn [Z.eqb].
  cbv zeta. rewrite signed8_code. reflexivity.
Qed.

Lemma dec_i2reg_imm16 (b1 low high : Z) :
  Z.shiftr (Z.land b1 8) 3 = 1 -> is_byte low ->
  dec_i2reg b1 (Some low) (Some high) =
  "mov " ++ reg_name 1 (Z.land b1 7) ++ ", " ++
  str_int (twos_complement16 low high).
Proof.
  intros Hw Hlow. unfold dec_i2reg. rewrite Hw. cbn [Z.eqb Pos.eqb].
  pose proof (signed16_code low high Hlow) as Hs. cbv zeta in Hs |- *.
  rewrite Hs. reflexivity.
Qed.

(** C9. In [imm2acc] the guard of the immediate extraction holds for every
    opcode, so the branch that prints [b2] unread is never taken: whichever
    of add, sub, cmp the leading byte selects, a byte immediate and a word
    immediate are both printed in two's complement. *)
Theorem imm2acc_guard_always_true :
  (forall opcode : Z, imm2acc_guard opcode = true) /\
  (forall (b1 v : Z) (b3 : option Z),
      word_flag b1 = 0 ->
      imm2acc b1 (Some v) b3 =
      acc_mnemonic b1 ++ " " ++ reg_name 0 0 ++ ", " ++
      str_int (twos_complement8 v)) /\
  (forall b1 low high : Z,
      word_flag b1 = 1 -> is_byte low ->
      imm2acc b1 (Some low) (Some high) =
      acc_mnemonic b1 ++ " " ++ reg_name 1 0 ++ ", " ++
      str_int (twos_complement16 low high)).
Proof.
  assert (Hguard : forall opcode, imm2acc_guard opcode = true).
  { intros opcode. unfold imm2acc_guard. apply orb_true_r. }
  split; [exact Hguard | split].
  - intros b1 v b3 Hw. unfold imm2acc. rewrite Hguard.
    fold (word_flag b1) (top7 b1). rewrite Hw. cbn [Z.eqb]. cbv zeta.
    rewrite signed8_code. reflexivity.
  - intros b1 low high Hw Hlow. unfold imm2acc. rewrite Hguard.
    fold (word_flag b1) (top7 b1). rewrite Hw. cbn [Z.eqb Pos.eqb].
    pose proof (signed16_code low high Hlow) as Hs. cbv zeta in Hs |- *.
    rewrite Hs. reflexivity.
Qed.

(** C9 at the CMP opcodes 0x3C and 0x3D, which match neither pattern of
    the guard. *)
Lemma imm2acc_guard_always_true_witness :
  imm2acc 60 (Some 255) None = "cmp al, -1" /\
  imm2acc 61 (Some 0) (Some 128) = "cmp ax, -32768".
Proof.
  split.
  - exact (proj1 (proj2 imm2acc_guard_always_true) 60 255 None eq_refl).
  - refine (proj2 (proj2 imm2acc_guard_always_true) 61 0 128 eq_refl _).
    unfold is_byte. lia.
Defined.

(** ** Length of the immediate-to-register-or-memory family *)

(** A pair returned by [imm2reg_alt] carries the length that goes with the
    mod field of the second byte. *)
Lemma imm2reg_alt_pair_size
  (b1 : Z) (b2 b3 b4 b5 : option Z) (instr : string) (size : nat) :
  imm2reg_alt b1 b2 b3 b4 b5 = Ok (RPair instr size) ->
  exists v2, b2 = Some v2 /\ size = imm2reg_length v2.
Proof.
  unfold imm2reg_alt. destruct b2 as [v2|]; cbn [need bind]; [|discriminate].
  intros H. exists v2. split; [reflexivity|].
  unfold imm2reg_length. fold (mod_field v2) in H |- *.
  destruct (String.eqb _ "Error"); [discriminate|].
  destruct (mod_field v2 =? 1) eqn:H1; cbn [orb] in H.
  - destruct (need b3) as [d|]; cbn [bind] in H; [|discriminate].
    injection H as _ <-. reflexivity.
  - destruct (mod_field v2 =? 2) eqn:H2.
    + destruct (need b4) as [v4|]; cbn [bind] in H; [|discriminate].
      destruct (need b3) as [v3|]; cbn [bind] in H; [|discriminate].
      injection H as _ <-. reflexivity.
    + injection H as _ <-. reflexivity.
Qed.

Lemma imm2reg_length_bounds (v2 : Z) :
  (3 <= imm2reg_length v2 <= 5)%nat.
Proof.
  unfold imm2reg_length.
  destruct (mod_field v2 =? 1); [lia|].
  destruct (mod_field v2 =? 2); lia.
Qed.

(** C5. On the bytes [0x81, 0xC0, 0x34, 0x12] the word flag is set and
    the specification counts a two-byte immediate, four bytes in all;
    [imm2reg_alt] reads the single byte 0x34 as the immediate and returns
    a length of three, so the driver prints "add ax, 52" and then takes
    the high byte 0x12 of the immediate for the next opcode. *)
Theorem imm2reg_alt_word_immediate_short :
  imm2reg_alt 129 (Some 192) (Some 52) (Some 18) None =
  Ok (RPair "add ax, 52" 3) /\
  spec_imm2reg_length 129 192 = 4%nat /\
  disassemble [129; 192; 52; 18] =
  Some ([processing_line 129 0; "Using: imm2reg_alt()";
         "Decoded: add ax, 52 (bytes: 10000001 11000000 00110100)";
         processing_line 18 3; unknown_line 18 3], Returned).
Proof. repeat split; vm_compute; reflexivity. Qed.

(** ** Rendering of memory operands *)

Lemma append_assoc (s t u : string) : (s ++ t) ++ u = s ++ t ++ u.
Proof.
  induction s as [|c s IH]; cbn [append]; [reflexivity|].
  rewrite IH. reflexivity.
Qed.

Lemma memory_operand_bracketed (base : string) (disp : option Z) :
  bracketed (memory_operand base disp).
Proof.
  unfold bracketed, memory_operand. destruct disp as [d|].
  - exists (base ++ " + " ++ str_int d).
    rewrite !append_assoc. reflexivity.
  - exists base. reflexivity.
Qed.

(** C8, as the specification has it, fails on [0x00, 0x40, 0x00] (add,
    mod=01, displacement byte 0): the operand is printed with its zero
    displacement, where the specification leaves the term out. *)
Lemma zero_displacement_is_printed :
  dec_modrm_instr 0 64 (Some 0) None = "add [bx + si + 0], al" /\
  dec_modrm_instr 0 64 (Some 0) None <>
  "add " ++ spec_memory_operand "bx + si" (Some 0) ++ ", al".
Proof. split; vm_compute; [reflexivity | discriminate]. Qed.

(** Closes a goal on a line of [dec_modrm_instr] by running through the
    three opcodes that [Hm : modrm_mnemonic b1 = Some _] allows. *)
Ltac by_mnemonic Hm :=
  repeat match goal with
         | |- context [top6 ?b =? ?k] =>
             destruct (top6 b =? k); [injection Hm as <-; reflexivity|]
         end;
  discriminate Hm.

(** C8, amended.  [dec_modrm_instr] in modes 00 and 01, and [imm2reg_alt]
    in modes 01 and 10 and in mode 00 with rm other than 110 (after a byte
    or word qualifier), print the memory operand in brackets.  In mode 00
    with rm other than 110, where the addressing mode has no displacement,
    the brackets hold the base expression alone; in mode 00 with rm 110,
    [dec_modrm_instr] puts the two address bytes in the brackets as four
    hexadecimal digits; and a displacement byte or word is always printed
    after a plus sign as its two's-complement value, zero included. *)
Theorem memory_operand_rendering :
  (forall base disp, bracketed (memory_operand base disp)) /\
  (forall base, memory_operand base (Some 0) = "[" ++ base ++ " + 0]") /\
  (forall (b1 b2 : Z) (b3 b4 : option Z) (instruction : string),
      modrm_mnemonic b1 = Some instruction ->
      (mod_field b2 = 0 -> rm_field b2 <> 6 ->
       dec_modrm_instr b1 b2 b3 b4 =
       modrm_line instruction b1 b2
         (memory_operand (ea_name (rm_field b2)) None)) /\
      (mod_field b2 = 0 -> rm_field b2 = 6 ->
       forall v3 v4, b3 = Some v3 -> b4 = Some v4 ->
       dec_modrm_instr b1 b2 b3 b4 =
       modrm_line instruction b1 b2
         (memory_operand
            ("0x" ++ format_04x (Z.lor (Z.shiftl v4 8) v3)) None)) /\
      (mod_field b2 = 1 ->
       forall v3, b3 = Some v3 ->
       dec_modrm_instr b1 b2 b3 b4 =
       modrm_line instruction b1 b2
         (memory_operand (ea_name (rm_field b2))
            (Some (twos_complement8 v3))))) /\
  (forall (b1 v2 : Z) (b3 b4 b5 : option Z),
      instruction_table (reg_field v2) <> "Error" ->
      (mod_field v2 = 0 -> rm_field v2 <> 6 ->
       imm2reg_alt b1 (Some v2) b3 b4 b5 =
       Ok (RPair (instruction_table (reg_field v2) ++ " " ++
                  ("byte " ++ memory_operand (ea_name (rm_field v2)) None) ++
                  ", " ++ str_opt b3) 3)) /\
      (mod_field v2 = 1 ->
       forall v3, b3 = Some v3 ->
       exists imm,
         imm2reg_alt b1 (Some v2) b3 b4 b5 =
         Ok (RPair (instruction_table (reg_field v2) ++ " " ++
                    (size_qualifier b1 ++
                     memory_operand (ea_name (rm_field v2))
                       (Some (twos_complement8 v3))) ++
                    ", " ++ imm) 4)) /\
      (mod_field v2 = 2 ->
       forall v3 v4, b3 = Some v3 -> b4 = Some v4 -> is_byte v3 ->
       imm2reg_alt b1 (Some v2) b3 b4 b5 =
       Ok (RPair (instruction_table (reg_field v2) ++ " " ++
                  (size_qualifier b1 ++
                   memory_operand (ea_name (rm_field v2))
                     (Some (twos_complement16 v3 v4))) ++
                  ", " ++ str_opt b5) 5))).
Proof.
  split; [exact memory_operand_bracketed|].
  split; [reflexivity|].
  split.
  - intros b1 b2 b3 b4 instruction Hm.
    unfold modrm_mnemonic in Hm.
    unfold dec_modrm_instr, modrm_line, memory_operand.
    fold (top6 b1) (mod_field b2) (rm_field b2) (reg_field b2)
      (word_flag b1) (direction_flag b1).
    repeat split.
    + intros H0 H6. rewrite H0. cbn [Z.eqb].
      destruct (Z.eqb_spec (rm_field b2) 6) as [|_]; [contradiction|].
      by_mnemonic Hm.
    + intros H0 H6 v3 v4 -> ->. rewrite H0, H6. cbn [Z.eqb Pos.eqb].
      by_mnemonic Hm.
    + intros H1 v3 ->. rewrite H1. cbn [Z.eqb Pos.eqb].
      rewrite <- signed8_code'.
      by_mnemonic Hm.
  - intros b1 v2 b3 b4 b5 Hcode.
    unfold imm2reg_alt, size_qualifier, memory_operand. cbn [need bind].
    fold (reg_field v2) (mod_field v2) (rm_field v2) (word_flag b1).
    destruct (String.eqb_spec (instruction_table (reg_field v2)) "Error")
      as [Heq|_]; [contradiction|].
    repeat split.
    + intros H0 _. rewrite H0. reflexivity.
    + intros H1 v3 ->. rewrite H1. cbn [Z.eqb Pos.eqb orb andb need bind].
      rewrite andb_true_r, andb_false_r, signed8_code.
      eexists. destruct (truthy (word_flag b1)); reflexivity.
    + intros H2 v3 v4 -> -> Hb. rewrite H2.
      cbn [Z.eqb Pos.eqb orb andb need bind].
      rewrite andb_false_r, andb_true_r.
      pose proof (signed16_code v3 v4 Hb) as Hs. cbv zeta in Hs.
      rewrite Hs.
      destruct (truthy (word_flag b1)); reflexivity.
Qed.

(** C8, amended, on an ADD with a zero displacement byte, an ADD with a
    direct address, an ADD without displacement, and the immediate family
    in modes 00, 01 and 10. *)
Lemma memory_operand_rendering_witness :
  dec_modrm_instr 0 7 None None = "add [bx], al" /\
  dec_modrm_instr 1 6 (Some 52) (Some 18) = "add [0x1234], ax" /\
  dec_modrm_instr 0 64 (Some 0) None = "add [bx + si + 0], al" /\
  imm2reg_alt 128 (Some 7) (Some 9) None None =
  Ok (RPair "add byte [bx], 9" 3) /\
  (exists imm,
      imm2reg_alt 129 (Some 64) (Some 0) (Some 5) None =
      Ok (RPair ("add word [bx + si + 0], " ++ imm) 4)) /\
  imm2reg_alt 128 (Some 128) (Some 0) (Some 128) (Some 5) =
  Ok (RPair "add byte [bx + si + -32768], 5" 5).
Proof.
  pose proof (proj1 (proj2 (proj2 memory_operand_rendering))) as Hmodrm.
  pose proof (proj2 (proj2 (proj2 memory_operand_rendering))) as Himm.
  refine (conj _ (conj _ (conj _ (conj _ (conj _ _))))).
  - refine (proj1 (Hmodrm 0 7 None None "add" eq_refl) eq_refl _).
    vm_compute. discriminate.
  - exact (proj1 (proj2 (Hmodrm 1 6 (Some 52) (Some 18) "add" eq_refl))
             eq_refl eq_refl 52 18 eq_refl eq_refl).
  - exact (proj2 (proj2 (Hmodrm 0 64 (Some 0) None "add" eq_refl))
             eq_refl 0 eq_refl).
  - refine (proj1 (Himm 128 7 (Some 9) None None _) eq_refl _);
      vm_compute; discriminate.
  - refine (proj1 (proj2 (Himm 129 64 (Some 0) (Some 5) None _))
              eq_refl 0 eq_refl).
    vm_compute; discriminate.
  - refine (proj2 (proj2 (Himm 128 128 (Some 0) (Some 128) (Some 5) _))
              eq_refl 0 128 eq_refl eq_refl _).
    + vm_compute; discriminate.
    + unfold is_byte. lia.
Defined.

(** ** Termination of the driver *)

(** A pass that goes on moves the cursor forward. *)
Lemma loop_body_advances
  (byte_list : list Z) (i : nat) (b1 : Z) (out : list string) (i' : nat) :
  loop_body byte_list i b1 = Next out i' -> (i < i')%nat.
Proof.
  unfold loop_body.
  destruct (in_list (Z.shiftr (Z.land b1 252) 2) [0; 10; 14]).
  - destruct (nth_error byte_list (i + 1)) as [b2|]; [|discriminate].
    destruct (Z.shiftr (Z.land b2 192) 6 =? 3).
    + intros H. injection H as _ <-. lia.
    + intros H. injection H as _ <-. lia.
  - destruct (Z.shiftr (Z.land b1 252) 2 =? 32).
    + destruct (imm2reg_alt b1 _ _ _ _) as [r|e] eqn:Hr; cbn [bind].
      * destruct r as [msg|instr size]; cbn [unpack_pair].
        -- destruct (String.length msg =? 2)%nat; discriminate.
        -- intros H. injection H as _ <-.
           apply imm2reg_alt_pair_size in Hr as (v2 & _ & ->).
           pose proof (imm2reg_length_bounds v2). lia.
      * discriminate.
    + destruct (in_list (Z.shiftr (Z.land b1 254) 1) [2; 22; 30]).
      * intros H. injection H as _ <-.
        destruct (truthy (Z.land b1 1)); lia.
      * intros H. injection H as _ <-. lia.
Qed.

(** With more passes allowed than bytes left, the loop gives a result. *)
Lemma disassemble_loop_total (fuel : nat) :
  forall (byte_list : list Z) (i : nat),
    (List.length byte_list - i < fuel)%nat ->
    exists r, disassemble_loop fuel byte_list i = Some r.
Proof.
  induction fuel as [|fuel IH]; intros byte_list i Hfuel; [lia|].
  cbn [disassemble_loop].
  destruct (nth_error byte_list i) as [b1|] eqn:Hb1; [|eauto].
  assert (Hi : (i < List.length byte_list)%nat).
  { apply nth_error_Some. rewrite Hb1. discriminate. }
  destruct (loop_body byte_list i b1) as [out i'|out|out e] eqn:Hbody;
    [|eauto|eauto].
  apply loop_body_advances in Hbody.
  destruct (IH byte_list i' ltac:(lia)) as [[rest st] ->]. eauto.
Qed.

(** Passes beyond those needed change nothing. *)
Lemma disassemble_loop_more_fuel (fuel : nat) :
  forall (byte_list : list Z) (i : nat) r,
    disassemble_loop fuel byte_list i = Some r ->
    disassemble_loop (S fuel) byte_list i = Some r.
Proof.
  induction fuel as [|fuel IH]; intros byte_list i r; [discriminate|].
  intros H. cbn [disassemble_loop] in H.
  change (disassemble_loop (S (S fuel)) byte_list i) with
    (match nth_error byte_list i with
     | None => Some ([], Returned)
     | Some b1 =>
         match loop_body byte_list i b1 with
         | Break out => Some (out, Returned)
         | Crash out e => Some (out, Raised e)
         | Next out i' =>
             match disassemble_loop (S fuel) byte_list i' with
             | None => None
             | Some (rest, st) => Some ((out ++ rest)%list, st)
             end
         end
     end).
  destruct (nth_error byte_list i) as [b1|]; [|exact H].
  destruct (loop_body byte_list i b1) as [out i'|out|out e];
    [|exact H|exact H].
  destruct (disassemble_loop fuel byte_list i') as [r'|] eqn:Hrec;
    [|discriminate].
  rewrite (IH _ _ _ Hrec). exact H.
Qed.

Lemma disassemble_loop_extra_fuel (extra fuel : nat) :
  forall (byte_list : list Z) (i : nat) r,
    disassemble_loop fuel byte_list i = Some r ->
    disassemble_loop (extra + fuel) byte_list i = Some r.
Proof.
  induction extra as [|extra IH]; intros byte_list i r H; [exact H|].
  cbn [Nat.add]. apply disassemble_loop_more_fuel, IH, H.
Qed.

(** C10. The driver terminates on every byte list: a pass of the loop
    body ends the run, by [break] or by an exception, or moves the cursor
    forward by at least one byte; at a cursor at or past the end of the
    list the loop stops without output; and [disassemble] returns a
    result, the one the loop gives under any larger bound on its passes. *)
Theorem disassemble_terminates (byte_list : list Z) :
  (forall (i : nat) (b1 : Z),
      nth_error byte_list i = Some b1 ->
      match loop_body byte_list i b1 with
      | Next _ i' => (i < i')%nat
      | Break _ | Crash _ _ => True
      end) /\
  (forall fuel i : nat,
      (List.length byte_list <= i)%nat ->
      disassemble_loop (S fuel) byte_list i = Some ([], Returned)) /\
  (exists r,
      disassemble byte_list = Some r /\
      forall extra : nat,
        disassemble_loop (extra + S (List.length byte_list)) byte_list 0 =
        Some r).
Proof.
  split; [|split].
  - intros i b1 _.
    destruct (loop_body byte_list i b1) as [out i'|out|out e] eqn:Hbody;
      [|exact I|exact I].
    exact (loop_body_advances _ _ _ _ _ Hbody).
  - intros fuel i Hi. cbn [disassemble_loop].
    apply nth_error_None in Hi. rewrite Hi. reflexivity.
  - destruct (disassemble_loop_total (S (List.length byte_list)) byte_list 0
                ltac:(lia)) as [r Hr].
    exists r. split; [exact Hr|].
    intros extra. apply disassemble_loop_extra_fuel, Hr.
Qed.

(** C10 on the two-byte stream [0x00, 0xC0]: the pass at cursor 0 moves the
    cursor to 2, where the loop stops. *)
Lemma disassemble_terminates_witness :
  (0 < 2)%nat /\
  disassemble_loop 1 [0; 192] 2 = Some ([], Returned).
Proof.
  split.
  - exact (proj1 (disassemble_terminates [0; 192]) 0%nat 0 eq_refl).
  - refine (proj1 (proj2 (disassemble_terminates [0; 192])) 0%nat 2%nat _).
    cbn [List.length]. lia.
Defined.

(** * Further properties of the code *)

(** ** Table lookups *)

(** A property of a masked byte that holds for the 256 byte values holds
    for every integer. *)
Lemma mask_cases (k : Z) (P : Z -> bool) :
  0 <= k < 256 ->
  forallb (fun v => P (Z.land v k)) all_bytes = true ->
  forall b : Z, P (Z.land b k) = true.
Proof.
  intros Hk Hall b. rewrite (land_low8 b k Hk).
  exact (byte_cases (fun v => P (Z.land v k)) Hall _ (mod256_is_byte b)).
Qed.

Lemma in_range_bool (lo hi x : Z) :
  (lo <=? x) && (x <? hi) = true -> lo <= x < hi.
Proof. intros H. apply andb_true_iff in H as [H1 H2]. lia. Qed.

Lemma word_flag_range (b1 : Z) : 0 <= word_flag b1 < 2.
Proof.
  apply in_range_bool.
  exact (mask_cases 1 (fun x => (0 <=? x) && (x <? 2)) ltac:(lia)
           ltac:(vm_compute; reflexivity) b1).
Qed.

Lemma direction_flag_range (b1 : Z) : 0 <= direction_flag b1 < 2.
Proof.
  apply in_range_bool.
  exact (mask_cases 2
           (fun x => (0 <=? Z.shiftr x 1) && (Z.shiftr x 1 <? 2)) ltac:(lia)
           ltac:(vm_compute; reflexivity) b1).
Qed.

Lemma mod_field_range (b2 : Z) : 0 <= mod_field b2 < 4.
Proof.
  apply in_range_bool.
  exact (mask_cases 192
           (fun x => (0 <=? Z.shiftr x 6) && (Z.shiftr x 6 <? 4)) ltac:(lia)
           ltac:(vm_compute; reflexivity) b2).
Qed.

Lemma reg_field_range (b2 : Z) : 0 <= reg_field b2 < 8.
Proof.
  apply in_range_bool.
  exact (mask_cases 56
           (fun x => (0 <=? Z.shiftr x 3) && (Z.shiftr x 3 <? 8)) ltac:(lia)
           ltac:(vm_compute; reflexivity) b2).
Qed.

Lemma rm_field_range (b2 : Z) : 0 <= rm_field b2 < 8.
Proof.
  apply in_range_bool.
  exact (mask_cases 7 (fun x => (0 <=? x) && (x <? 8)) ltac:(lia)
           ltac:(vm_compute; reflexivity) b2).
Qed.

Lemma i2reg_word_flag_range (b1 : Z) : 0 <= Z.shiftr (Z.land b1 8) 3 < 2.
Proof.
  apply in_range_bool.
  exact (mask_cases 8
           (fun x => (0 <=? Z.shiftr x 3) && (Z.shiftr x 3 <? 2)) ltac:(lia)
           ltac:(vm_compute; reflexivity) b1).
Qed.

Lemma reg_name_in_row (w f : Z) :
  0 <= w < 2 -> 0 <= f < 8 ->
  In (reg_name w f) (nth (Z.to_nat w) regtable []).
Proof.
  intros Hw Hf.
  assert (w = 0 \/ w = 1) as [-> | ->] by lia;
    assert (f = 0 \/ f = 1 \/ f = 2 \/ f = 3 \/
            f = 4 \/ f = 5 \/ f = 6 \/ f = 7)
      as [-> | [-> | [-> | [-> | [-> | [-> | [-> | ->]]]]]]] by lia;
    vm_compute; tauto.
Qed.

Lemma ea_name_in_table (rm : Z) :
  0 <= rm < 8 -> In (ea_name rm) eff_add_calc.
Proof.
  intros Hf.
  assert (rm = 0 \/ rm = 1 \/ rm = 2 \/ rm = 3 \/
          rm = 4 \/ rm = 5 \/ rm = 6 \/ rm = 7)
    as [-> | [-> | [-> | [-> | [-> | [-> | [-> | ->]]]]]]] by lia;
    vm_compute; tauto.
Qed.

(** X1. Whatever integers stand for the two leading bytes, every index the
    routines compute for [regtable] and [eff_add_calc] is non-negative and
    inside the table, so every operand name printed is an entry of the
    table row that the width bit selects: no lookup can raise or wrap
    around. *)
Theorem table_lookups_in_range (b1 b2 : Z) :
  In (reg_name (word_flag b1) (reg_field b2))
     (nth (Z.to_nat (word_flag b1)) regtable []) /\
  In (reg_name (word_flag b1) (rm_field b2))
     (nth (Z.to_nat (word_flag b1)) regtable []) /\
  In (reg_name (word_flag b1) 0)
     (nth (Z.to_nat (word_flag b1)) regtable []) /\
  In (reg_name (Z.shiftr (Z.land b1 8) 3) (Z.land b1 7))
     (nth (Z.to_nat (Z.shiftr (Z.land b1 8) 3)) regtable []) /\
  In (ea_name (rm_field b2)) eff_add_calc /\
  0 <= word_flag b1 < Z.of_nat (List.length regtable) /\
  0 <= Z.shiftr (Z.land b1 8) 3 < Z.of_nat (List.length regtable) /\
  0 <= reg_field b2 < 8 /\ 0 <= rm_field b2 < 8 /\ 0 <= Z.land b1 7 < 8.
Proof.
  pose proof (word_flag_range b1) as Hw.
  pose proof (i2reg_word_flag_range b1) as Hw'.
  pose proof (reg_field_range b2) as Hreg.
  pose proof (rm_field_range b2) as Hrm.
  pose proof (rm_field_range b1) as Hlow. unfold rm_field in Hlow.
  repeat split;
    try (apply reg_name_in_row; lia);
    try (apply ea_name_in_table; assumption);
    cbn [regtable List.length]; lia.
Qed.

(** ** The opcodes the driver knows *)

(** The three tests of the driver, in terms of the byte itself. *)
Lemma dispatch_table (b1 : Z) :
  is_byte b1 ->
  in_list b1 known_opcodes =
  in_list (top6 b1) [0; 10; 14] || (top6 b1 =? 32) ||
  in_list (top7 b1) [2; 22; 30].
Proof.
  intros Hb. apply eqb_prop.
  exact (byte_cases
    (fun v => Bool.eqb (in_list v known_opcodes)
                (in_list (top6 v) [0; 10; 14] || (top6 v =? 32) ||
                 in_list (top7 v) [2; 22; 30]))
    ltac:(vm_compute; reflexivity) b1 Hb).
Qed.

(** The accumulator patterns exclude the patterns tested before them. *)
Lemma accumulator_excludes (b1 : Z) :
  in_list (top7 b1) [2; 22; 30] = true ->
  in_list (top6 b1) [0; 10; 14] = false /\ (top6 b1 =? 32) = false.
Proof.
  rewrite top7_low8, top6_low8. intros H7.
  pose proof (byte_cases
    (fun v => implb (in_list (top7 v) [2; 22; 30])
                (negb (in_list (top6 v) [0; 10; 14]) &&
                 negb (top6 v =? 32)))
    ltac:(vm_compute; reflexivity) _ (mod256_is_byte b1)) as Hc.
  cbv beta in Hc. rewrite H7 in Hc. cbn [implb] in Hc.
  apply andb_true_iff in Hc as [H6 H32].
  apply negb_true_iff in H6, H32. split; assumption.
Qed.

Lemma loop_body_unknown (byte_list : list Z) (i : nat) (b1 : Z) :
  in_list (top6 b1) [0; 10; 14] = false ->
  (top6 b1 =? 32) = false ->
  in_list (top7 b1) [2; 22; 30] = false ->
  loop_body byte_list i b1 =
  Next [processing_line b1 i; unknown_line b1 i] (i + 1).
Proof.
  intros H6 H32 H7. unfold loop_body. fold (top6 b1) (top7 b1).
  rewrite H6, H32, H7. reflexivity.
Qed.

(** A pass through a decoding branch never prints just the two lines of an
    unknown opcode. *)
Lemma loop_body_known_shape (byte_list : list Z) (i : nat) (b1 : Z) :
  in_list (top6 b1) [0; 10; 14] || (top6 b1 =? 32) ||
  in_list (top7 b1) [2; 22; 30] = true ->
  forall (l1 l2 : string) (i' : nat),
    loop_body byte_list i b1 <> Next [l1; l2] i'.
Proof.
  intros Hk l1 l2 i'. unfold loop_body. fold (top6 b1) (top7 b1).
  destruct (in_list (top6 b1) [0; 10; 14]).
  - destruct (nth_error byte_list (i + 1)) as [b2|]; [|discriminate].
    destruct (Z.shiftr (Z.land b2 192) 6 =? 3); discriminate.
  - destruct (top6 b1 =? 32).
    + destruct (r <- imm2reg_alt b1 _ _ _ _ ;; unpack_pair r)
        as [[instr size]|e]; discriminate.
    + cbn [orb] in Hk. rewrite Hk. discriminate.
Qed.

(** X2. For a byte [b1] at the cursor, the driver prints the two lines of
    an unknown opcode and moves on by one byte exactly when [b1] is none of
    0x00-0x05, 0x28-0x2D, 0x38-0x3D and 0x80-0x83; these 22 values are the
    only leading bytes that reach a decode routine. *)
Theorem unknown_opcode_iff (byte_list : list Z) (i : nat) (b1 : Z) :
  is_byte b1 ->
  (loop_body byte_list i b1 =
   Next [processing_line b1 i; unknown_line b1 i] (i + 1) <->
   in_list b1 known_opcodes = false).
Proof.
  intros Hb. rewrite (dispatch_table b1 Hb). split.
  - intros Hbody.
    destruct (in_list (top6 b1) [0; 10; 14] || (top6 b1 =? 32) ||
              in_list (top7 b1) [2; 22; 30]) eqn:Hk; [|reflexivity].
    exfalso. exact (loop_body_known_shape byte_list i b1 Hk _ _ _ Hbody).
  - intros Hk.
    apply orb_false_iff in Hk as [Hk H7].
    apply orb_false_iff in Hk as [H6 H32].
    apply loop_body_unknown; assumption.
Qed.

(** X2 on the MOV opcode 0x8B in front of a field byte, and on the ADD
    opcode 0x01, which is known. *)
Lemma unknown_opcode_iff_witness :
  loop_body [139; 195] 0 139 =
  Next [processing_line 139 0; unknown_line 139 0] 1 /\
  loop_body [1; 195] 0 1 <>
  Next [processing_line 1 0; unknown_line 1 0] 1.
Proof.
  split.
  - refine (proj2 (unknown_opcode_iff [139; 195] 0 139 _) eq_refl).
    unfold is_byte. lia.
  - intros H.
    assert (Hb : is_byte 1) by (unfold is_byte; lia).
    pose proof (proj1 (unknown_opcode_iff [1; 195] 0 1 Hb) H) as H'.
    discriminate H'.
Defined.

(** ** The register/memory family *)

(** X3. When the leading byte is an ADD, SUB or CMP of the register/memory
    form and a field byte follows it, the pass never stops the run: it
    prints three lines and moves the cursor by 2 plus the displacement
    bytes of the addressing mode (none for mod 11 and for mod 00 with rm
    other than 110, one for mod 01, two for mod 10 and for mod 00 with rm
    110), whether or not the stream still holds those bytes. *)
Theorem regmem_pass (byte_list : list Z) (i : nat) (b1 b2 : Z) :
  in_list (top6 b1) [0; 10; 14] = true ->
  nth_error byte_list (i + 1) = Some b2 ->
  loop_body byte_list i b1 =
  Next [processing_line b1 i;
        (if mod_field b2 =? 3 then "Using: dec_reg2reg()"
         else "Using: dec_modrm_instr()");
        decoded_line
          (if mod_field b2 =? 3 then dec_reg2reg b1 b2
           else dec_modrm_instr b1 b2 (nth_error byte_list (i + 2))
                  (nth_error byte_list (i + 3)))
          (slice byte_list i (2 + spec_displacement_bytes b2))]
       (i + (2 + spec_displacement_bytes b2)).
Proof.
  intros Hop Hb2. unfold loop_body. fold (top6 b1). rewrite Hop, Hb2.
  fold (mod_field b2) (rm_field b2).
  assert (Hsize :
    (if mod_field b2 =? 3 then 0%nat
     else if (mod_field b2 =? 0) && (rm_field b2 =? 6) then 2%nat
          else if mod_field b2 =? 1 then 1%nat
               else if mod_field b2 =? 2 then 2%nat else 0%nat) =
    spec_displacement_bytes b2).
  { unfold spec_displacement_bytes.
    destruct (Z.eqb_spec (mod_field b2) 3) as [E3|N3];
      destruct (Z.eqb_spec (mod_field b2) 1) as [E1|N1];
      destruct (Z.eqb_spec (mod_field b2) 2) as [E2|N2];
      destruct (Z.eqb_spec (mod_field b2) 0) as [E0|N0];
      cbn [andb]; try reflexivity; try lia;
      destruct (rm_field b2 =? 6); reflexivity. }
  rewrite <- Hsize.
  destruct (mod_field b2 =? 3); reflexivity.
Qed.

(** X3 on [0x01, 0x06] at the end of a stream: the direct address is
    missing, and the cursor still moves by four. *)
Lemma regmem_pass_witness :
  exists out, loop_body [1; 6] 0 1 = Next out 4.
Proof.
  eexists. exact (regmem_pass [1; 6] 0 1 6 eq_refl eq_refl).
Defined.

(** A line that opens with a mnemonic is none of the missing-byte
    messages. *)
Lemma modrm_line_not_missing (instruction : string) (b1 b2 : Z) (ea : string) :
  In instruction ["add"; "sub"; "cmp"] ->
  ~ In (modrm_line instruction b1 b2 ea) missing_messages.
Proof.
  intros Hin Hmiss. unfold modrm_line, missing_messages in Hmiss.
  cbn [In] in Hin, Hmiss.
  destruct Hin as [<- | [<- | [<- | []]]];
    destruct Hmiss as [H | [H | [H | []]]]; discriminate H.
Qed.

Lemma modrm_mnemonic_cases (b1 : Z) (instruction : string) :
  modrm_mnemonic b1 = Some instruction ->
  In instruction ["add"; "sub"; "cmp"].
Proof.
  unfold modrm_mnemonic.
  destruct (top6 b1 =? 0); [intros [= <-]; cbn; tauto|].
  destruct (top6 b1 =? 10); [intros [= <-]; cbn; tauto|].
  destruct (top6 b1 =? 14); [intros [= <-]; cbn; tauto|].
  discriminate.
Qed.

(** [dec_modrm_instr] is its mnemonic test followed by its
    effective-address step. *)
Lemma dec_modrm_instr_steps (b1 b2 : Z) (b3 b4 : option Z) :
  dec_modrm_instr b1 b2 b3 b4 =
  match modrm_mnemonic b1 with
  | None => "Error: Invalid opcode"
  | Some instruction =>
      match effective_address b2 b3 b4 with
      | inl ea => modrm_line instruction b1 b2 ea
      | inr msg => msg
      end
  end.
Proof.
  unfold dec_modrm_instr, modrm_mnemonic, effective_address, modrm_line.
  fold (top6 b1) (mod_field b2) (rm_field b2) (reg_field b2)
    (word_flag b1) (direction_flag b1).
  cbv zeta.
  destruct (top6 b1 =? 0); [|destruct (top6 b1 =? 10);
                             [|destruct (top6 b1 =? 14); [|reflexivity]]];
    (destruct (mod_field b2 =? 0);
     [destruct (rm_field b2 =? 6);
      [destruct b3, b4; reflexivity | reflexivity]|]);
    (destruct (mod_field b2 =? 1); [destruct b3; reflexivity|]);
    (destruct (mod_field b2 =? 2); [destruct b3, b4; reflexivity|]);
    reflexivity.
Qed.

(** X4. Called as the driver calls it (an ADD, SUB or CMP opcode, mod
    other than 11), [dec_modrm_instr] either has the displacement or
    address bytes its mode needs and returns a line that opens with the
    mnemonic, or lacks one of them and returns one of its three
    missing-byte messages; its two other error messages cannot come out. *)
Theorem dec_modrm_instr_missing_bytes
  (b1 b2 : Z) (b3 b4 : option Z) (instruction : string) :
  modrm_mnemonic b1 = Some instruction ->
  mod_field b2 <> 3 ->
  (displacement_present b2 b3 b4 /\
   exists ea,
     dec_modrm_instr b1 b2 b3 b4 = modrm_line instruction b1 b2 ea /\
     ~ In (modrm_line instruction b1 b2 ea) missing_messages) \/
  (~ displacement_present b2 b3 b4 /\
   In (dec_modrm_instr b1 b2 b3 b4) missing_messages).
Proof.
  intros Hm Hmod.
  pose proof (modrm_mnemonic_cases b1 instruction Hm) as Hin.
  pose proof (mod_field_range b2) as Hrange.
  rewrite dec_modrm_instr_steps, Hm.
  unfold effective_address, displacement_present.
  assert (mod_field b2 = 0 \/ mod_field b2 = 1 \/ mod_field b2 = 2)
    as [E | [E | E]] by lia; rewrite E; cbn [Z.eqb Pos.eqb].
  - destruct (Z.eqb_spec (rm_field b2) 6) as [E6|N6].
    + destruct b3 as [v3|], b4 as [v4|].
      * left. split; [repeat split; intros; discriminate|].
        eexists. split; [reflexivity|].
        apply modrm_line_not_missing, Hin.
      * right. split; [intros (H & _ & _); destruct (H eq_refl E6); congruence|].
        cbn; tauto.
      * right. split; [intros (H & _ & _); destruct (H eq_refl E6); congruence|].
        cbn; tauto.
      * right. split; [intros (H & _ & _); destruct (H eq_refl E6); congruence|].
        cbn; tauto.
    + left. split; [repeat split; intros; try discriminate; contradiction|].
      eexists. split; [reflexivity|].
      apply modrm_line_not_missing, Hin.
  - destruct b3 as [v3|].
    + left. split; [repeat split; intros; discriminate|].
      eexists. split; [reflexivity|].
      apply modrm_line_not_missing, Hin.
    + right. split; [intros (_ & H & _); specialize (H eq_refl); congruence|].
      cbn; tauto.
  - destruct b3 as [v3|], b4 as [v4|].
    + left. split; [repeat split; intros; discriminate|].
      eexists. split; [reflexivity|].
      apply modrm_line_not_missing, Hin.
    + right. split; [intros (_ & _ & H); destruct (H eq_refl); congruence|].
      cbn; tauto.
    + right. split; [intros (_ & _ & H); destruct (H eq_refl); congruence|].
      cbn; tauto.
    + right. split; [intros (_ & _ & H); destruct (H eq_refl); congruence|].
      cbn; tauto.
Qed.

(** X4 on the field byte 0x40 (mod 01) with no byte after it. *)
Lemma dec_modrm_instr_missing_bytes_witness :
  In (dec_modrm_instr 0 64 None None) missing_messages.
Proof.
  assert (Hmod : mod_field 64 <> 3) by (vm_compute; discriminate).
  destruct (dec_modrm_instr_missing_bytes 0 64 None None "add" eq_refl Hmod)
    as [[Hp _] | [_ H]]; [|exact H].
  exfalso. destruct Hp as (_ & H & _). apply (H eq_refl). reflexivity.
Defined.

Lemma ea_name_not_bracketed (rm : Z) (rest : string) :
  0 <= rm < 8 -> ~ bracketed (ea_name rm ++ rest).
Proof.
  intros Hrm [body Hbody].
  assert (rm = 0 \/ rm = 1 \/ rm = 2 \/ rm = 3 \/
          rm = 4 \/ rm = 5 \/ rm = 6 \/ rm = 7)
    as [-> | [-> | [-> | [-> | [-> | [-> | [-> | ->]]]]]]] by lia;
    discriminate Hbody.
Qed.

(** X5. In mode 10, given both displacement bytes, [dec_modrm_instr]
    prints the memory operand as the base expression, a plus sign and the
    displacement word read as two's complement, and puts no brackets
    around it. *)
Theorem dec_modrm_instr_word_displacement
  (b1 b2 v3 v4 : Z) (instruction : string) :
  modrm_mnemonic b1 = Some instruction ->
  mod_field b2 = 2 ->
  is_byte v3 ->
  dec_modrm_instr b1 b2 (Some v3) (Some v4) =
  modrm_line instruction b1 b2
    (ea_name (rm_field b2) ++ " + " ++ str_int (twos_complement16 v3 v4)) /\
  ~ bracketed
      (ea_name (rm_field b2) ++ " + " ++ str_int (twos_complement16 v3 v4)).
Proof.
  intros Hm Hmod Hb. split.
  - rewrite dec_modrm_instr_steps, Hm. unfold effective_address.
    rewrite Hmod. cbn [Z.eqb Pos.eqb].
    pose proof (signed16_code v3 v4 Hb) as Hs. cbv zeta in Hs |- *.
    rewrite Hs. reflexivity.
  - apply ea_name_not_bracketed, rm_field_range.
Qed.

(** X5 on the bytes [0x00, 0x80, 0x05, 0x01]. *)
Lemma dec_modrm_instr_word_displacement_witness :
  dec_modrm_instr 0 128 (Some 5) (Some 1) = "add bx + si + 261, al".
Proof.
  refine (proj1 (dec_modrm_instr_word_displacement 0 128 5 1 "add"
                   eq_refl eq_refl _)).
  unfold is_byte. lia.
Defined.

(** ** The direction bit of [dec_reg2reg] *)

Lemma flip_direction_fields (b1 : Z) :
  is_byte b1 ->
  top6 (Z.lxor b1 2) = top6 b1 /\
  word_flag (Z.lxor b1 2) = word_flag b1 /\
  truthy (direction_flag (Z.lxor b1 2)) = negb (truthy (direction_flag b1)).
Proof.
  intros Hb.
  pose proof (byte_cases
    (fun v => (top6 (Z.lxor v 2) =? top6 v) &&
              (word_flag (Z.lxor v 2) =? word_flag v) &&
              Bool.eqb (truthy (direction_flag (Z.lxor v 2)))
                (negb (truthy (direction_flag v))))
    ltac:(vm_compute; reflexivity) b1 Hb) as Hc.
  cbv beta in Hc.
  apply andb_true_iff in Hc as [Hc Hd].
  apply andb_true_iff in Hc as [H6 Hw].
  apply Z.eqb_eq in H6, Hw. apply eqb_prop in Hd. auto.
Qed.

Lemma exchange_fields_swaps (b2 : Z) :
  is_byte b2 ->
  reg_field (exchange_fields b2) = rm_field b2 /\
  rm_field (exchange_fields b2) = reg_field b2 /\
  mod_field (exchange_fields b2) = mod_field b2.
Proof.
  intros Hb.
  pose proof (byte_cases
    (fun v => (reg_field (exchange_fields v) =? rm_field v) &&
              (rm_field (exchange_fields v) =? reg_field v) &&
              (mod_field (exchange_fields v) =? mod_field v))
    ltac:(vm_compute; reflexivity) b2 Hb) as Hc.
  cbv beta in Hc.
  apply andb_true_iff in Hc as [Hc Hm].
  apply andb_true_iff in Hc as [Hr Hrm].
  apply Z.eqb_eq in Hr, Hrm, Hm. auto.
Qed.

(** X6. [dec_reg2reg] gives the same line for the two encodings of one
    register-to-register instruction: flipping the direction bit of the
    leading byte while exchanging the reg and rm fields of the field byte
    changes nothing in the text. *)
Theorem dec_reg2reg_direction_symmetry (b1 b2 : Z) :
  is_byte b1 -> is_byte b2 ->
  dec_reg2reg (Z.lxor b1 2) (exchange_fields b2) = dec_reg2reg b1 b2.
Proof.
  intros Hb1 Hb2.
  destruct (flip_direction_fields b1 Hb1) as (H6 & Hw & Hd).
  destruct (exchange_fields_swaps b2 Hb2) as (Hr & Hrm & _).
  unfold dec_reg2reg.
  fold (top6 (Z.lxor b1 2)) (word_flag (Z.lxor b1 2))
    (direction_flag (Z.lxor b1 2)) (reg_field (exchange_fields b2))
    (rm_field (exchange_fields b2)).
  fold (top6 b1) (word_flag b1) (direction_flag b1) (reg_field b2)
    (rm_field b2).
  rewrite H6, Hw, Hd, Hr, Hrm.
  destruct (truthy (direction_flag b1)); reflexivity.
Qed.

(** X6 on [0x29, 0xD8] and [0x2B, 0xC3], both "sub ax, bx". *)
Lemma dec_reg2reg_direction_symmetry_witness :
  dec_reg2reg 43 195 = dec_reg2reg 41 216.
Proof.
  refine (dec_reg2reg_direction_symmetry 41 216 _ _);
    unfold is_byte; lia.
Defined.

(** ** Outcomes of [imm2reg_alt] *)

Lemma instruction_table_error (code : Z) :
  instruction_table code = "Error" <-> ~ In code [0; 5; 7].
Proof.
  unfold instruction_table. cbn [In].
  destruct (Z.eqb_spec code 0) as [->|N0]; [split; [discriminate|tauto]|].
  destruct (Z.eqb_spec code 5) as [->|N5]; [split; [discriminate|tauto]|].
  destruct (Z.eqb_spec code 7) as [->|N7]; [split; [discriminate|tauto]|].
  split; [|reflexivity]. intros _ [H | [H | [H | []]]]; congruence.
Qed.

(** X7. The three ways [imm2reg_alt] can end.  It raises only
    [TypeError], and only when the field byte is missing or when, under a
    sub-opcode of its table, a displacement byte of mode 01 or 10 is
    missing.  It returns the bare message exactly for a field byte whose
    sub-opcode is none of 000, 101, 111.  Otherwise it returns a pair whose
    length is 3, 4 or 5 by the mod field; a missing immediate byte is not
    an error. *)
Theorem imm2reg_alt_outcomes (b1 : Z) (b2 b3 b4 b5 : option Z) :
  match imm2reg_alt b1 b2 b3 b4 b5 with
  | Raise e =>
      e = TypeError /\
      (b2 = None \/
       exists v2, b2 = Some v2 /\ In (reg_field v2) [0; 5; 7] /\
         ((mod_field v2 = 1 /\ b3 = None) \/
          (mod_field v2 = 2 /\ (b3 = None \/ b4 = None))))
  | Ok (RStr msg) =>
      msg = "Error: Invalid instruction code" /\
      exists v2, b2 = Some v2 /\ ~ In (reg_field v2) [0; 5; 7]
  | Ok (RPair _ size) =>
      exists v2, b2 = Some v2 /\ In (reg_field v2) [0; 5; 7] /\
        size = imm2reg_length v2 /\
        (mod_field v2 = 1 -> b3 <> None) /\
        (mod_field v2 = 2 -> b3 <> None /\ b4 <> None)
  end.
Proof.
  assert (Hlen : forall v k,
    mod_field v = 1 /\ k = 4%nat \/ mod_field v = 2 /\ k = 5%nat \/
    mod_field v <> 1 /\ mod_field v <> 2 /\ k = 3%nat ->
    k = imm2reg_length v).
  { intros v k H. unfold imm2reg_length.
    destruct (Z.eqb_spec (mod_field v) 1), (Z.eqb_spec (mod_field v) 2); lia. }
  unfold imm2reg_alt.
  destruct b2 as [v2|]; cbn [need bind]; [|split; [reflexivity|left; reflexivity]].
  fold (reg_field v2) (mod_field v2) (rm_field v2).
  destruct (String.eqb_spec (instruction_table (reg_field v2)) "Error")
    as [Herr|Hok].
  { split; [reflexivity|]. exists v2. split; [reflexivity|].
    apply instruction_table_error, Herr. }
  assert (Hin : In (reg_field v2) [0; 5; 7]).
  { destruct (in_dec Z.eq_dec (reg_field v2) [0; 5; 7]) as [H|H]; [exact H|].
    exfalso. apply Hok, instruction_table_error, H. }
  destruct (Z.eqb_spec (mod_field v2) 1) as [E1|N1]; cbn [orb].
  - destruct b3 as [v3|]; cbn [need bind].
    + exists v2. split; [reflexivity|]. split; [exact Hin|].
      split; [apply Hlen; tauto|]. split; [intros _; discriminate|].
      intros E2. exfalso. lia.
    + split; [reflexivity|]. right. exists v2. tauto.
  - destruct (Z.eqb_spec (mod_field v2) 2) as [E2|N2].
    + destruct b4 as [v4|]; cbn [need bind];
        [destruct b3 as [v3|]; cbn [need bind]|].
      * exists v2. split; [reflexivity|]. split; [exact Hin|].
        split; [apply Hlen; tauto|]. split; [intros E1; contradiction|].
        intros _. split; discriminate.
      * split; [reflexivity|]. right. exists v2. tauto.
      * split; [reflexivity|]. right. exists v2. tauto.
    + exists v2. split; [reflexivity|]. split; [exact Hin|].
      split; [apply Hlen; tauto|]. split; intros E; contradiction.
Qed.

(** X8. Which byte [imm2reg_alt] prints as the immediate where the mode
    leaves a choice.  In register mode (mod 11) it is the third byte, after
    the register named by the rm field, and a missing byte is printed as
    "None".  In mode 01 it is the fifth byte whenever the stream has one,
    although the length returned is 4, and the fourth byte only when there
    is no fifth. *)
Theorem imm2reg_alt_immediate_choice (b1 v2 : Z) (b3 b4 b5 : option Z) :
  In (reg_field v2) [0; 5; 7] ->
  (mod_field v2 = 3 ->
   imm2reg_alt b1 (Some v2) b3 b4 b5 =
   Ok (RPair (instruction_table (reg_field v2) ++ " " ++
              reg_name (word_flag b1) (rm_field v2) ++ ", " ++
              str_opt b3) 3)) /\
  (mod_field v2 = 1 ->
   forall v3, b3 = Some v3 ->
   imm2reg_alt b1 (Some v2) b3 b4 b5 =
   Ok (RPair (instruction_table (reg_field v2) ++ " " ++
              (size_qualifier b1 ++
               memory_operand (ea_name (rm_field v2))
                 (Some (twos_complement8 v3))) ++ ", " ++
              str_opt (match b5 with None => b4 | Some _ => b5 end)) 4)).
Proof.
  intros Hin.
  assert (Hok : instruction_table (reg_field v2) <> "Error").
  { intros Herr. apply instruction_table_error in Herr. contradiction. }
  unfold imm2reg_alt, size_qualifier, memory_operand. cbn [need bind].
  fold (reg_field v2) (mod_field v2) (rm_field v2) (word_flag b1).
  destruct (String.eqb_spec (instruction_table (reg_field v2)) "Error")
    as [Heq|_]; [contradiction|].
  split.
  - intros H3. rewrite H3. reflexivity.
  - intros H1 v3 ->. rewrite H1. cbn [Z.eqb Pos.eqb orb andb need bind].
    rewrite andb_true_r, andb_false_r, signed8_code.
    destruct (truthy (word_flag b1)), b5; reflexivity.
Qed.

(** X8 on [0x80, 0xC0] at the end of a stream, and on
    [0x80, 0x40, 0x00, 0x05, 0x06], where 6 is printed and not 5. *)
Lemma imm2reg_alt_immediate_choice_witness :
  imm2reg_alt 128 (Some 192) None None None = Ok (RPair "add al, None" 3) /\
  imm2reg_alt 128 (Some 64) (Some 0) (Some 5) (Some 6) =
  Ok (RPair "add byte [bx + si + 0], 6" 4).
Proof.
  assert (H0 : In (reg_field 192) [0; 5; 7]) by (vm_compute; tauto).
  assert (H1 : In (reg_field 64) [0; 5; 7]) by (vm_compute; tauto).
  split.
  - exact (proj1 (imm2reg_alt_immediate_choice 128 192 None None None H0)
             eq_refl).
  - exact (proj2 (imm2reg_alt_immediate_choice 128 64 (Some 0) (Some 5)
                    (Some 6) H1) eq_refl 0 eq_refl).
Defined.

(** X7 on the field byte 0x08 (sub-opcode 001), on a lone leading byte,
    and on a field byte of mode 01 followed by its displacement. *)
Lemma imm2reg_alt_outcomes_witness :
  (exists v2, Some 8 = Some v2 /\ ~ In (reg_field v2) [0; 5; 7]) /\
  imm2reg_alt 128 None None None None = Raise TypeError /\
  (exists v2, Some 64 = Some v2 /\ In (reg_field v2) [0; 5; 7] /\
     4%nat = imm2reg_length v2 /\
     (mod_field v2 = 1 -> Some 0 <> None) /\
     (mod_field v2 = 2 -> Some 0 <> None /\ @None Z <> None)).
Proof.
  split; [|split].
  - exact (proj2 (imm2reg_alt_outcomes 128 (Some 8) None None None)).
  - pose proof (proj1 (imm2reg_alt_outcomes 128 None None None None)) as H.
    cbv beta iota in H. reflexivity.
  - exact (imm2reg_alt_outcomes 128 (Some 64) (Some 0) None None).
Defined.

(** ** The accumulator family *)

(** X9. When the top seven bits of the leading byte are one of the three
    accumulator patterns, the pass never stops the run and moves the
    cursor by 2, or by 3 when the word flag is set, even when the
    immediate bytes lie beyond the end of the stream; [imm2acc] then puts
    its missing-value message in the place of the instruction. *)
Theorem accumulator_pass (byte_list : list Z) (i : nat) (b1 : Z) :
  in_list (top7 b1) [2; 22; 30] = true ->
  loop_body byte_list i b1 =
  Next [processing_line b1 i; "Using: imm2acc()";
        decoded_line
          (imm2acc b1 (nth_error byte_list (i + 1))
             (nth_error byte_list (i + 2)))
          (slice byte_list i (if truthy (word_flag b1) then 3 else 2))]
       (i + (if truthy (word_flag b1) then 3 else 2)) /\
  (nth_error byte_list (i + 1) = None ->
   imm2acc b1 (nth_error byte_list (i + 1)) (nth_error byte_list (i + 2)) =
   if truthy (word_flag b1) then "Error: Missing immediate word"
   else "Error: Missing immediate value") /\
  (truthy (word_flag b1) = true -> nth_error byte_list (i + 2) = None ->
   imm2acc b1 (nth_error byte_list (i + 1)) (nth_error byte_list (i + 2)) =
   "Error: Missing immediate word").
Proof.
  intros H7. destruct (accumulator_excludes b1 H7) as [H6 H32].
  split; [|split].
  - unfold loop_body. fold (top6 b1) (top7 b1) (word_flag b1).
    rewrite H6, H32, H7. reflexivity.
  - intros ->. unfold imm2acc, imm2acc_guard, truthy.
    fold (word_flag b1). cbn [orb negb Z.eqb]. rewrite orb_true_r.
    destruct (word_flag b1 =? 0); reflexivity.
  - unfold truthy. intros Hw ->. unfold imm2acc, imm2acc_guard, truthy.
    fold (word_flag b1). cbn [orb negb Z.eqb]. rewrite orb_true_r.
    apply negb_true_iff in Hw. rewrite Hw.
    destruct (nth_error byte_list (i + 1)); reflexivity.
Qed.

(** X9 on the lone byte 0x3D (CMP with the accumulator, word). *)
Lemma accumulator_pass_witness :
  loop_body [61] 0 61 =
  Next [processing_line 61 0; "Using: imm2acc()";
        "Decoded: Error: Missing immediate word (bytes: 00111101)"] 3.
Proof.
  pose proof (accumulator_pass [61] 0 61 eq_refl) as (Hpass & Hmiss & _).
  rewrite Hpass, (Hmiss eq_refl). reflexivity.
Defined.

(** ** [dec_i2reg] *)

Lemma twos_complement8_range (v : Z) :
  is_byte v ->
  -128 <= twos_complement8 v < 128 /\ (twos_complement8 v - v) mod 256 = 0.
Proof.
  intros [Hlo Hhi]. unfold twos_complement8.
  destruct (Z.leb_spec 128 v).
  - split; [lia|]. replace (v - 256 - v) with (-1 * 256) by lia.
    apply Z.mod_mul. lia.
  - split; [lia|]. replace (v - v) with 0 by lia. reflexivity.
Qed.

Lemma twos_complement16_range (low high : Z) :
  is_byte low -> is_byte high ->
  -32768 <= twos_complement16 low high < 32768 /\
  (twos_complement16 low high - (high * 256 + low)) mod 65536 = 0.
Proof.
  intros [Hlo Hhi] [Hlo' Hhi']. unfold twos_complement16. cbv zeta.
  destruct (Z.leb_spec 32768 (high * 256 + low)).
  - split; [lia|].
    replace (high * 256 + low - 65536 - (high * 256 + low))
      with (-1 * 65536) by lia.
    apply Z.mod_mul. lia.
  - split; [lia|].
    replace (high * 256 + low - (high * 256 + low)) with 0 by lia.
    reflexivity.
Qed.

(** X10. [dec_i2reg] on bytes of a file: with bit 3 of the leading byte
    clear it prints a MOV of the byte register named by the low three bits
    and of a value between -128 and 127 congruent to the immediate byte
    modulo 256; with bit 3 set, of the word register and of a value between
    -32768 and 32767 congruent to high * 256 + low modulo 65536.  Without
    the bytes it needs it returns a message and does not raise. *)
Theorem dec_i2reg_signed (b1 low high : Z) :
  is_byte low -> is_byte high ->
  let w := Z.shiftr (Z.land b1 8) 3 in
  (w = 0 /\
   (forall b3, dec_i2reg b1 (Some low) b3 =
      "mov " ++ reg_name 0 (Z.land b1 7) ++ ", " ++
      str_int (twos_complement8 low)) /\
   -128 <= twos_complement8 low < 128 /\
   (twos_complement8 low - low) mod 256 = 0 /\
   (forall b3, dec_i2reg b1 None b3 = "Error: Missing immediate value")) \/
  (w = 1 /\
   dec_i2reg b1 (Some low) (Some high) =
   "mov " ++ reg_name 1 (Z.land b1 7) ++ ", " ++
   str_int (twos_complement16 low high) /\
   -32768 <= twos_complement16 low high < 32768 /\
   (twos_complement16 low high - (high * 256 + low)) mod 65536 = 0 /\
   (forall b2, dec_i2reg b1 b2 None = "Error: Missing immediate word") /\
   (forall b3, dec_i2reg b1 None b3 = "Error: Missing immediate word")).
Proof.
  intros Hlow Hhigh w.
  pose proof (i2reg_word_flag_range b1) as Hw. fold w in Hw.
  assert (w = 0 \/ w = 1) as [E | E] by lia; [left | right];
    (split; [exact E|]).
  - destruct (twos_complement8_range low Hlow) as [Hr Hc].
    split; [intros b3; apply dec_i2reg_imm8; exact E|].
    split; [exact Hr|]. split; [exact Hc|].
    intros b3. unfold dec_i2reg. fold w. rewrite E. reflexivity.
  - destruct (twos_complement16_range low high Hlow Hhigh) as [Hr Hc].
    split; [apply dec_i2reg_imm16; assumption|].
    split; [exact Hr|]. split; [exact Hc|].
    split; intros b; unfold dec_i2reg; fold w; rewrite E; cbn [Z.eqb];
      destruct b; reflexivity.
Qed.

(** X10 on [0xB1, 0xF4] and on [0xB9, 0x00, 0x80]. *)
Lemma dec_i2reg_signed_witness :
  dec_i2reg 177 (Some 244) None = "mov cl, -12" /\
  dec_i2reg 185 (Some 0) (Some 128) = "mov cx, -32768".
Proof.
  assert (Hb : forall v, 0 <= v < 256 -> is_byte v) by (intros; assumption).
  split.
  - destruct (dec_i2reg_signed 177 244 0 (Hb 244 ltac:(lia)) (Hb 0 ltac:(lia)))
      as [(_ & H & _) | (E & _)]; [exact (H None) | discriminate E].
  - destruct (dec_i2reg_signed 185 0 128 (Hb 0 ltac:(lia)) (Hb 128 ltac:(lia)))
      as [(E & _) | (_ & H & _)]; [discriminate E | exact H].
Defined.

(** ** Whole runs of the driver *)

(** Only the branch of the immediate-to-register-or-memory family can
    raise. *)
Lemma loop_body_crash_family
  (byte_list : list Z) (i : nat) (b1 : Z) (out : list string) (e : exn) :
  loop_body byte_list i b1 = Crash out e -> top6 b1 = 32.
Proof.
  unfold loop_body. fold (top6 b1) (top7 b1).
  destruct (in_list (top6 b1) [0; 10; 14]).
  - destruct (nth_error byte_list (i + 1)) as [b2|]; [|discriminate].
    destruct (Z.shiftr (Z.land b2 192) 6 =? 3); discriminate.
  - destruct (Z.eqb_spec (top6 b1) 32) as [E|_]; [intros _; exact E|].
    destruct (in_list (top7 b1) [2; 22; 30]); discriminate.
Qed.

Lemma disassemble_loop_returns (byte_list : list Z) :
  (forall b, In b byte_list -> top6 b <> 32) ->
  forall (fuel i : nat) (out : list string) (st : status),
    disassemble_loop fuel byte_list i = Some (out, st) -> st = Returned.
Proof.
  intros Hfam fuel.
  induction fuel as [|fuel IH]; intros i out st; [discriminate|].
  cbn [disassemble_loop].
  destruct (nth_error byte_list i) as [b1|] eqn:Hb1;
    [|intros [= _ <-]; reflexivity].
  destruct (loop_body byte_list i b1) as [out1 i'|out1|out1 e] eqn:Hbody.
  - destruct (disassemble_loop fuel byte_list i') as [[rest st']|] eqn:Hrec;
      [|discriminate].
    intros [= _ <-]. exact (IH _ _ _ Hrec).
  - intros [= _ <-]. reflexivity.
  - exfalso. apply (Hfam b1 (nth_error_In _ _ Hb1)).
    exact (loop_body_crash_family _ _ _ _ _ Hbody).
Qed.

(** X11. On a stream in which no byte has 100000 as its top six bits
    (none of 0x80-0x83 when the bytes come from a file), the driver raises
    nothing: [disassemble] returns normally with its output. *)
Theorem disassemble_returns_without_imm_family (byte_list : list Z) :
  (forall b, In b byte_list -> top6 b <> 32) ->
  exists out, disassemble byte_list = Some (out, Returned).
Proof.
  intros Hfam.
  destruct (disassemble_loop_total (S (List.length byte_list)) byte_list 0
              ltac:(lia)) as [[out st] Hr].
  exists out. unfold disassemble. rewrite Hr.
  rewrite (disassemble_loop_returns byte_list Hfam _ _ _ _ Hr). reflexivity.
Qed.

(** X11 on [0x00, 0x40]: a mode-01 ADD cut short after its field byte. *)
Lemma disassemble_returns_without_imm_family_witness :
  exists out, disassemble [0; 64] = Some (out, Returned).
Proof.
  apply disassemble_returns_without_imm_family.
  intros b [<- | [<- | []]]; vm_compute; discriminate.
Defined.

(** What one pass prints and how far it can move the cursor. *)
Lemma loop_body_lines (byte_list : list Z) (i : nat) (b1 : Z) :
  match loop_body byte_list i b1 with
  | Next out i' =>
      (2 <= List.length out <= 3)%nat /\ (i' <= i + 5)%nat /\
      hd_error out = Some (processing_line b1 i)
  | Break out | Crash out _ =>
      List.length out = 2%nat /\ hd_error out = Some (processing_line b1 i)
  end.
Proof.
  unfold loop_body. fold (top6 b1) (top7 b1).
  destruct (in_list (top6 b1) [0; 10; 14]).
  - destruct (nth_error byte_list (i + 1)) as [b2|];
      [|cbn [List.length hd_error]; auto].
    destruct (Z.shiftr (Z.land b2 192) 6 =? 3);
      cbn [List.length hd_error]; [repeat split; lia|].
    destruct (_ && _); [repeat split; lia|].
    destruct (_ =? 1); [repeat split; lia|].
    destruct (_ =? 2); repeat split; lia.
  - destruct (top6 b1 =? 32).
    + destruct (imm2reg_alt b1 _ _ _ _) as [r|e] eqn:Hr; cbn [bind];
        [|cbn [List.length hd_error]; auto].
      destruct r as [msg|instr size]; cbn [unpack_pair].
      * destruct (String.length msg =? 2)%nat;
          cbn [List.length hd_error]; auto.
      * apply imm2reg_alt_pair_size in Hr as (v2 & _ & ->).
        pose proof (imm2reg_length_bounds v2).
        cbn [List.length hd_error]. repeat split; lia.
    + destruct (in_list (top7 b1) [2; 22; 30]);
        cbn [List.length hd_error]; [|repeat split; lia].
      destruct (truthy (Z.land b1 1)); repeat split; lia.
Qed.

Lemma disassemble_loop_lines (byte_list : list Z) (fuel : nat) :
  forall (i : nat) (out : list string) (st : status),
    disassemble_loop fuel byte_list i = Some (out, st) ->
    (List.length out <= 3 * (List.length byte_list - i))%nat.
Proof.
  induction fuel as [|fuel IH]; intros i out st; [discriminate|].
  cbn [disassemble_loop].
  destruct (nth_error byte_list i) as [b1|] eqn:Hb1;
    [|intros [= <- _]; cbn [List.length]; lia].
  assert (Hi : (i < List.length byte_list)%nat).
  { apply nth_error_Some. rewrite Hb1. discriminate. }
  pose proof (loop_body_lines byte_list i b1) as Hlines.
  destruct (loop_body byte_list i b1) as [out1 i'|out1|out1 e] eqn:Hbody.
  - destruct (disassemble_loop fuel byte_list i') as [[rest st']|] eqn:Hrec;
      [|discriminate].
    intros [= <- _]. apply loop_body_advances in Hbody.
    specialize (IH _ _ _ Hrec). rewrite length_app. lia.
  - intros [= <- _]. lia.
  - intros [= <- _]. lia.
Qed.

Lemma disassemble_loop_head
  (fuel : nat) (byte_list : list Z) (i : nat) (b : Z)
  (out : list string) (st : status) :
  nth_error byte_list i = Some b ->
  disassemble_loop (S fuel) byte_list i = Some (out, st) ->
  hd_error out = Some (processing_line b i).
Proof.
  intros Hb Hrun. cbn [disassemble_loop] in Hrun. rewrite Hb in Hrun.
  pose proof (loop_body_lines byte_list i b) as H.
  destruct (loop_body byte_list i b) as [out1 i'|out1|out1 e].
  - destruct (disassemble_loop fuel byte_list i') as [[more st']|];
      [|discriminate].
    injection Hrun as <- _. destruct H as (Hlen & _ & Hhd).
    destruct out1; [cbn in Hlen; lia | exact Hhd].
  - injection Hrun as <- _. tauto.
  - injection Hrun as <- _. tauto.
Qed.

(** X12. Counting calls of [print], each of which may put out more than
    one line of text.  Every pass of the loop calls [print] two or three
    times, exactly twice when it leaves the loop with [break] or by an
    exception, and a pass that goes on moves the cursor by five bytes at
    most.  A whole run therefore makes at most three calls of [print] per
    byte of the stream, and on a stream that is not empty its first call
    prints the "Processing" message of the first byte. *)
Theorem disassemble_output_bound (byte_list : list Z) :
  (forall (i : nat) (b1 : Z),
      match loop_body byte_list i b1 with
      | Next out i' =>
          (2 <= List.length out <= 3)%nat /\ (i' <= i + 5)%nat
      | Break out | Crash out _ => List.length out = 2%nat
      end) /\
  (forall (out : list string) (st : status),
      disassemble byte_list = Some (out, st) ->
      (List.length out <= 3 * List.length byte_list)%nat /\
      (forall b rest, byte_list = b :: rest ->
                      hd_error out = Some (processing_line b 0))).
Proof.
  split.
  - intros i b1.
    pose proof (loop_body_lines byte_list i b1) as H.
    destruct (loop_body byte_list i b1); tauto.
  - intros out st Hrun. split.
    + pose proof (disassemble_loop_lines _ _ _ _ _ Hrun). lia.
    + intros b rest ->.
      exact (disassemble_loop_head _ (b :: rest) 0 b out st eq_refl Hrun).
Qed.

(** X12 on the stream [0x04, 0x07]: three calls of [print] for two
    bytes. *)
Lemma disassemble_output_bound_witness :
  (List.length [processing_line 4 0; "Using: imm2acc()";
                "Decoded: add al, 7 (bytes: 00000100 00000111)"]
   <= 3 * 2)%nat.
Proof.
  exact (proj1 (proj2 (disassemble_output_bound [4; 7]) _ Returned eq_refl)).
Defined.

Lemma nth_error_after (pre rest : list Z) (k : nat) :
  nth_error (pre ++ rest) (List.length pre + k) = nth_error rest k.
Proof.
  rewrite nth_error_app2 by lia. f_equal. lia.
Qed.

Lemma unknown_run (rest : list Z) :
  (forall b, In b rest ->
             in_list (top6 b) [0; 10; 14] = false /\
             (top6 b =? 32) = false /\
             in_list (top7 b) [2; 22; 30] = false) ->
  forall (fuel : nat) (pre : list Z),
    (List.length rest < fuel)%nat ->
    disassemble_loop fuel (pre ++ rest) (List.length pre) =
    Some (unknown_lines rest (List.length pre), Returned).
Proof.
  induction rest as [|b rest IH]; intros Hall fuel pre Hfuel;
    (destruct fuel as [|fuel]; [cbn [List.length] in Hfuel; lia|]);
    cbn [disassemble_loop];
    rewrite <- (Nat.add_0_r (List.length pre)) at 1;
    rewrite nth_error_after; cbn [nth_error]; [reflexivity|].
  destruct (Hall b (or_introl eq_refl)) as (H6 & H32 & H7).
  rewrite (loop_body_unknown _ _ _ H6 H32 H7).
  specialize (IH (fun b' Hb' => Hall b' (or_intror Hb')) fuel (pre ++ [b])%list).
  rewrite <- app_assoc, length_app in IH. cbn [app List.length] in IH.
  rewrite IH by (cbn [List.length] in Hfuel; lia).
  cbn [unknown_lines app]. rewrite Nat.add_1_r. reflexivity.
Qed.

(** X13. A stream of bytes from a file none of which is a leading byte the
    driver knows is skipped one byte at a time: the run returns normally
    after printing, for each byte in order, its "Processing" line and its
    "Unknown opcode" line with the index of the byte. *)
Theorem disassemble_unknown_stream (byte_list : list Z) :
  (forall b, In b byte_list ->
             is_byte b /\ in_list b known_opcodes = false) ->
  disassemble byte_list = Some (unknown_lines byte_list 0, Returned).
Proof.
  intros Hall. unfold disassemble.
  apply (unknown_run byte_list) with (pre := []); [|lia].
  intros b Hb. destruct (Hall b Hb) as [Hbyte Hk].
  rewrite (dispatch_table b Hbyte) in Hk.
  apply orb_false_iff in Hk as [Hk H7].
  apply orb_false_iff in Hk as [H6 H32]. auto.
Qed.

(** X13 on the MOV bytes [0x89, 0xD8]. *)
Lemma disassemble_unknown_stream_witness :
  disassemble [137; 216] = Some (unknown_lines [137; 216] 0, Returned).
Proof.
  apply disassemble_unknown_stream.
  intros b [<- | [<- | []]]; (split; [unfold is_byte; lia | reflexivity]).
Defined.

Lemma slice_after (pre rest : list Z) (used : list Z) (n : nat) :
  n = List.length used ->
  slice (pre ++ used ++ rest) (List.length pre) n = used.
Proof.
  intros ->. unfold slice. rewrite skipn_app, Nat.sub_diag, skipn_all.
  cbn [skipn app]. rewrite firstn_app, Nat.sub_diag, firstn_all.
  cbn [firstn]. apply app_nil_r.
Qed.

Lemma reg2reg_run (instrs : list (Z * Z)) :
  (forall p, In p instrs ->
             in_list (top6 (fst p)) [0; 10; 14] = true /\
             mod_field (snd p) = 3) ->
  forall (fuel : nat) (pre : list Z),
    (List.length instrs < fuel)%nat ->
    disassemble_loop fuel (pre ++ flatten_pairs instrs) (List.length pre) =
    Some (reg2reg_lines instrs (List.length pre), Returned).
Proof.
  induction instrs as [|[b1 b2] instrs IH]; intros Hall fuel pre Hfuel;
    (destruct fuel as [|fuel]; [cbn [List.length] in Hfuel; lia|]);
    cbn [disassemble_loop flatten_pairs flat_map fst snd app];
    rewrite <- (Nat.add_0_r (List.length pre)) at 1;
    rewrite nth_error_after; cbn [nth_error]; [reflexivity|].
  destruct (Hall (b1, b2) (or_introl eq_refl)) as [Hop Hmod].
  cbn [fst snd] in Hop, Hmod.
  fold (flatten_pairs instrs).
  unfold loop_body. fold (top6 b1). rewrite Hop.
  rewrite nth_error_after. cbn [nth_error].
  fold (mod_field b2). rewrite Hmod. cbn [Z.eqb Pos.eqb].
  change (b1 :: b2 :: flatten_pairs instrs)
    with (([b1; b2] ++ flatten_pairs instrs)%list).
  rewrite (slice_after pre (flatten_pairs instrs) [b1; b2] 2 eq_refl).
  specialize (IH (fun p Hp => Hall p (or_intror Hp)) fuel (pre ++ [b1; b2])%list).
  rewrite <- app_assoc, length_app in IH. cbn [List.length] in IH.
  rewrite IH by (cbn [List.length] in Hfuel; lia).
  reflexivity.
Qed.

(** X14. A stream that is a sequence of two-byte register-to-register
    instructions (leading byte an ADD, SUB or CMP of the register/memory
    form, field byte with mod 11) is decoded instruction by instruction:
    the run returns normally after printing, for each pair in order, three
    lines whose last one carries the text of [dec_reg2reg] for that pair and
    exactly its two bytes. *)
Theorem disassemble_reg2reg_stream (instrs : list (Z * Z)) :
  (forall p, In p instrs ->
             in_list (top6 (fst p)) [0; 10; 14] = true /\
             mod_field (snd p) = 3) ->
  disassemble (flatten_pairs instrs) =
  Some (reg2reg_lines instrs 0, Returned).
Proof.
  intros Hall. unfold disassemble.
  apply (reg2reg_run instrs Hall) with (pre := []).
  assert (Hlen : List.length (flatten_pairs instrs) =
                 (2 * List.length instrs)%nat).
  { clear Hall. induction instrs as [|p instrs IH]; [reflexivity|].
    cbn [flatten_pairs flat_map List.length app] in *.
    fold (flatten_pairs instrs). rewrite IH. lia. }
  rewrite Hlen. lia.
Qed.

(** X14 on "add ax, bx" followed by "cmp cl, dl". *)
Lemma disassemble_reg2reg_stream_witness :
  disassemble [1; 216; 56; 209] =
  Some ([processing_line 1 0; "Using: dec_reg2reg()";
         "Decoded: add ax, bx (bytes: 00000001 11011000)";
         processing_line 56 2; "Using: dec_reg2reg()";
         "Decoded: cmp cl, dl (bytes: 00111000 11010001)"], Returned).
Proof.
  apply (disassemble_reg2reg_stream [(1, 216); (56, 209)]).
  intros p [<- | [<- | []]]; split; reflexivity.
Defined.

(** ** [safe_read] *)



Lemma Forall_firstn_bytes (n : nat) (l : list Z) :
  Forall is_byte l -> Forall is_byte (firstn n l).
Proof.
  intros H. apply Forall_forall. intros x Hx.
  rewrite Forall_forall in H. apply H.
  rewrite <- (firstn_skipn n l). apply in_or_app. left. exact Hx.
Qed.

Lemma int_from_bytes_little_bound (data : list Z) :
  Forall is_byte data ->
  0 <= int_from_bytes_little data < 256 ^ Z.of_nat (List.length data).
Proof.
  induction 1 as [|b data [Hlo Hhi] _ IH]; cbn [int_from_bytes_little].
  - cbn. lia.
  - cbn [List.length]. rewrite Nat2Z.inj_succ, Z.pow_succ_r by lia. nia.
Qed.

(** X16. On a file of bytes, a number read by [safe_read] for a request of
    [num_bytes] bytes is non-negative and below 256 to the power
    [num_bytes]; and a two-byte read gives the low byte first, the very
    word [(high << 8) | low] that the decode routines build. *)
Theorem safe_read_little_endian (f : list Z) (num_bytes v : Z) :
  Forall is_byte f ->
  0 <= num_bytes ->
  (forall f', safe_read f num_bytes = Ok (Some v, f') ->
              0 <= v < 256 ^ num_bytes) /\
  (forall low high rest,
      f = low :: high :: rest ->
      safe_read f 2 = Ok (Some (Z.lor (Z.shiftl high 8) low), rest)).
Proof.
  intros Hbytes Hn. split.
  - intros f'. unfold safe_read, file_read.
    destruct (Z.ltb_spec num_bytes (-1)) as [Hlow|_]; [lia|].
    destruct (Z.ltb_spec num_bytes 0) as [Hneg|_]; [lia|]. cbn [bind].
    pose proof (int_from_bytes_little_bound
                  (firstn (Z.to_nat num_bytes) f)
                  (Forall_firstn_bytes _ _ Hbytes)) as Hb.
    assert (Hlen : Z.of_nat (List.length (firstn (Z.to_nat num_bytes) f))
                   <= num_bytes).
    { rewrite length_firstn. lia. }
    pose proof (Z.pow_le_mono_r 256 _ _ ltac:(lia) Hlen) as Hpow.
    destruct (firstn (Z.to_nat num_bytes) f) as [|b data];
      [discriminate|].
    intros Hv. assert (Hv' : int_from_bytes_little (b :: data) = v)
      by congruence.
    rewrite <- Hv'. lia.
  - intros low high rest ->.
    apply Forall_inv in Hbytes.
    rewrite (lor_shiftl8 high low Hbytes).
    unfold safe_read, file_read.
    change (Z.to_nat 2) with 2%nat.
    cbn [Z.ltb Z.compare firstn skipn int_from_bytes_little bind].
    do 3 f_equal. lia.
Qed.

(** X16 on a file that starts with the bytes 0x34, 0x12. *)
Lemma safe_read_little_endian_witness :
  safe_read [52; 18; 7] 2 = Ok (Some 4660, [7]).
Proof.
  refine (proj2 (safe_read_little_endian [52; 18; 7] 2 0 _ _) 52 18 [7]
            eq_refl).
  - repeat constructor; unfold is_byte; lia.
  - lia.
Defined.

(** With a sub-opcode of the table and the displacement bytes of its mode,
    [imm2reg_alt] returns a pair. *)
Lemma imm2reg_alt_present (b1 v2 : Z) (b3 b4 b5 : option Z) :
  instruction_table (reg_field v2) <> "Error" ->
  (mod_field v2 = 1 -> b3 <> None) ->
  (mod_field v2 = 2 -> b3 <> None /\ b4 <> None) ->
  exists instr,
    imm2reg_alt b1 (Some v2) b3 b4 b5 = Ok (RPair instr (imm2reg_length v2)).
Proof.
  intros Hcode H01 H10.
  unfold imm2reg_alt, imm2reg_length. cbn [need bind].
  fold (reg_field v2) (mod_field v2).
  destruct (String.eqb_spec (instruction_table (reg_field v2)) "Error")
    as [Heq|_]; [contradiction|].
  destruct (Z.eqb_spec (mod_field v2) 1) as [E1|N1]; cbn [orb].
  - destruct b3 as [v3|]; [|exfalso; apply (H01 E1); reflexivity].
    cbn [need bind]. eexists. reflexivity.
  - destruct (Z.eqb_spec (mod_field v2) 2) as [E2|N2].
    + destruct (H10 E2) as [H3 H4].
      destruct b3 as [v3|]; [|contradiction].
      destruct b4 as [v4|]; [|contradiction].
      cbn [need bind]. eexists. reflexivity.
    + eexists. reflexivity.
Qed.

(** ** The immediate-to-register-or-memory family in the driver *)

(** X17. A pass on a leading byte with top six bits 100000.  With no byte
    after it the run ends in [TypeError]; with a field byte whose
    sub-opcode is none of 000, 101, 111 it ends in [ValueError], for every
    such field byte and whatever follows; in both cases only the
    "Processing" and "Using" lines are printed.  With a sub-opcode of the
    table and the displacement bytes of modes 01 and 10 in the stream, the
    pass prints a "Decoded" line and moves the cursor by the length that
    goes with the mod field. *)
Theorem imm_family_pass (byte_list : list Z) (i : nat) (b1 : Z) :
  top6 b1 = 32 ->
  (nth_error byte_list (i + 1) = None ->
   loop_body byte_list i b1 =
   Crash [processing_line b1 i; "Using: imm2reg_alt()"] TypeError) /\
  (forall v2,
      nth_error byte_list (i + 1) = Some v2 ->
      ~ In (reg_field v2) [0; 5; 7] ->
      loop_body byte_list i b1 =
      Crash [processing_line b1 i; "Using: imm2reg_alt()"] ValueError) /\
  (forall v2,
      nth_error byte_list (i + 1) = Some v2 ->
      In (reg_field v2) [0; 5; 7] ->
      (mod_field v2 = 1 -> nth_error byte_list (i + 2) <> None) ->
      (mod_field v2 = 2 -> nth_error byte_list (i + 2) <> None /\
                           nth_error byte_list (i + 3) <> None) ->
      exists instr,
        loop_body byte_list i b1 =
        Next [processing_line b1 i; "Using: imm2reg_alt()";
              decoded_line instr (slice byte_list i (imm2reg_length v2))]
             (i + imm2reg_length v2)).
Proof.
  intros Htop.
  assert (Hbody : loop_body byte_list i b1 =
    match r <- imm2reg_alt b1 (nth_error byte_list (i + 1))
                 (nth_error byte_list (i + 2)) (nth_error byte_list (i + 3))
                 (nth_error byte_list (i + 4)) ;; unpack_pair r with
    | Raise e => Crash [processing_line b1 i; "Using: imm2reg_alt()"] e
    | Ok (instr, instr_size) =>
        Next [processing_line b1 i; "Using: imm2reg_alt()";
              decoded_line instr (slice byte_list i instr_size)]
             (i + instr_size)
    end).
  { unfold loop_body. fold (top6 b1). rewrite Htop. reflexivity. }
  rewrite Hbody. clear Hbody. split; [|split].
  - intros ->. reflexivity.
  - intros v2 -> Hcode. unfold imm2reg_alt. cbn [need bind].
    fold (reg_field v2).
    apply instruction_table_error in Hcode. rewrite Hcode. reflexivity.
  - intros v2 -> Hcode H01 H10.
    assert (Hok : instruction_table (reg_field v2) <> "Error").
    { intros Herr. apply instruction_table_error in Herr. contradiction. }
    destruct (imm2reg_alt_present b1 v2 _ _ (nth_error byte_list (i + 4))
                Hok H01 H10) as [instr ->].
    exists instr. reflexivity.
Qed.

(** X17 on [0x83], on [0x80, 0x10, 0x07] and on [0x83, 0xE8, 0x02]. *)
Lemma imm_family_pass_witness :
  loop_body [131] 0 131 =
  Crash [processing_line 131 0; "Using: imm2reg_alt()"] TypeError /\
  loop_body [128; 16; 7] 0 128 =
  Crash [processing_line 128 0; "Using: imm2reg_alt()"] ValueError /\
  (exists instr,
      loop_body [131; 232; 2] 0 131 =
      Next [processing_line 131 0; "Using: imm2reg_alt()";
            decoded_line instr (slice [131; 232; 2] 0 3)] 3).
Proof.
  split; [|split].
  - exact (proj1 (imm_family_pass [131] 0 131 eq_refl) eq_refl).
  - refine (proj1 (proj2 (imm_family_pass [128; 16; 7] 0 128 eq_refl))
              16 eq_refl _).
    vm_compute. intros [H | [H | [H | []]]]; discriminate H.
  - refine (proj2 (proj2 (imm_family_pass [131; 232; 2] 0 131 eq_refl))
              232 eq_refl _ _ _).
    + vm_compute. tauto.
    + vm_compute. discriminate.
    + vm_compute. discriminate.
Defined.
